(** * wg_tg_bot: a Telegram front end provisioning WireGuard peers

    Shallow embedding of [opt/wg-bot/wg_bot.py] (the SQLite-backed bot) and of
    the profile template of the older file-based bot [wg_bot.py].

    The Python handlers mutate three things: the [peers] table behind the
    module-level cursor, the kernel interface (through the [wg] binary), and
    the chat (through [reply_*]).  They are embedded as computations in a
    state-and-exception monad [Bot] over a [World] holding the committed
    table, the peer table of the interface and a chronological journal of
    every effect performed.  The [wg] binary and the wall clock are not part
    of the repository: their answers are drawn from an [Env] oracle, so every
    theorem holds for every behaviour of the toolchain. *)

From Stdlib Require Import Ascii.
From stdpp Require Import base strings list gmap sets pretty sorting.

#[local] Open Scope string_scope.
#[local] Open Scope list_scope.
#[local] Open Scope Z_scope.

(** ** Python text primitives *)

(** [str(i)] / [f"{i}"] for an [int]: decimal digits, a leading minus sign
    for negative numbers. *)
Definition str (i : Z) : string := pretty i.

(** ASCII part of [str.isspace]: TAB, LF, VT, FF, CR, FS, GS, RS, US, SP. *)
Definition isspace (c : ascii) : bool :=
  let n := nat_of_ascii c in
  ((9 <=? n) && (n <=? 13) || (28 <=? n) && (n <=? 32))%nat.

Fixpoint lstrip (s : string) : string :=
  match s with
  | String c s' => if isspace c then lstrip s' else s
  | EmptyString => EmptyString
  end.

(** [s.strip()] *)
Definition strip (s : string) : string :=
  String.rev (lstrip (String.rev (lstrip s))).

(** [range(a, b)] *)
Definition range (a b : Z) : list Z := seqZ a (b - a).

(** ** Configuration (module-level constants read from the environment) *)

Record Config := {
  TOKEN : string;
  ADMIN_CHAT_ID : option string;       (* [os.getenv] yields [None] or text *)
  DB_PATH : string;
  SERVER_PUBLIC_IP : string;
  SERVER_WG_PORT : Z;                  (* [int(os.getenv(...))] *)
  SERVER_PUBLIC_KEY : string;
  SERVER_INTERFACE : string;
  CLIENT_BASE : string;
  CLIENT_START : Z;
  CLIENT_MAX : Z;
  APPLY_PEER : bool;
  qrcode : bool                        (* [False] when the import failed *)
}.

(** ** The [peers] table *)

Record Peer := {
  id : Z;
  name : string;
  private_key : string;
  public_key : string;
  address : string;
  created_at : string
}.

#[global] Instance Peer_eq_dec : EqDecision Peer.
Proof. solve_decision. Defined.

(** Rows are kept in rowid order (an insert takes the largest rowid plus
    one, so it lands at the end). *)
Abbreviation Table := (list Peer).

(** rowid given to the next inserted row *)
Definition next_rowid (t : Table) : Z := foldr Z.max 0 (id <$> t) + 1.

(** [SELECT address FROM peers], collected into a Python set *)
Definition used_addresses (t : Table) : gset string :=
  list_to_set (address <$> t).

(** [SELECT ... FROM peers WHERE name=?] followed by [fetchone()] *)
Definition select_by_name (t : Table) (n : string) : option Peer :=
  head (filter (λ r, name r = n) t).

(** [DELETE FROM peers WHERE name=?] *)
Definition delete_by_name (t : Table) (n : string) : Table :=
  filter (λ r, name r ≠ n) t.

(** ** Exceptions, processes, replies *)

Inductive Exn :=
  | RuntimeError (msg : string)
  | IntegrityError (msg : string)     (* sqlite3.IntegrityError *)
  | OSError (msg : string).           (* raised by [subprocess.run] itself *)

(** [str(e)] / [f"{e}"] *)
Definition exn_str (e : Exn) : string :=
  match e with RuntimeError m | IntegrityError m | OSError m => m end.

Record CompletedProcess := {
  returncode : Z;
  stdout : string;
  stderr : string
}.

(** What one [subprocess.run] call does: the process cannot be spawned
    (an exception is raised), or it runs to completion. *)
Inductive RunOutcome :=
  | Raised (msg : string)
  | Completed (p : CompletedProcess).

Inductive Reply :=
  | ReplyText (text : string)
  | ReplyDocument (content filename : string) (caption : option string)
  | ReplyPhoto (qr_of filename : string) (caption : option string).

(** One externally visible effect. *)
Inductive Event :=
  | Spawn (cmd : list string) (input : option string)
  | Insert (row : Peer)                (* committed INSERT *)
  | Delete (n : string)                (* committed DELETE ... WHERE name=n *)
  | Sent (r : Reply).

Definition is_spawn (e : Event) : bool :=
  match e with Spawn _ _ => true | _ => false end.

Record World := {
  db : Table;                          (* committed contents of [peers] *)
  iface : gmap string string;          (* interface: public key -> allowed-ips *)
  journal : list Event                 (* effects so far, oldest first *)
}.

Definition spawn_count (j : list Event) : nat := length (filter is_spawn j).

(** Number of processes spawned so far; the oracle is consulted at it. *)
Definition spawned (w : World) : nat := spawn_count (journal w).

(** The outside world: the [wg] binary and SQLite's [CURRENT_TIMESTAMP],
    each as an arbitrary function of how many processes ran before. *)
Record Env := {
  run_outcome : nat → list string → option string → RunOutcome;
  CURRENT_TIMESTAMP : nat → string
}.

Definition init_world : World := {| db := []; iface := ∅; journal := [] |}.

(** ** The monad of handler code *)

Definition Bot (A : Type) : Type := World → (Exn + A) * World.

Definition ret {A} (a : A) : Bot A := λ w, (inr a, w).

Definition bind {A B} (m : Bot A) (k : A → Bot B) : Bot B :=
  λ w, match m w with
       | (inr a, w') => k a w'
       | (inl e, w') => (inl e, w')
       end.

Definition raise {A} (e : Exn) : Bot A := λ w, (inl e, w).

(** [try: m  except Exception as e: ...], the exception reified *)
Definition try {A} (m : Bot A) : Bot (Exn + A) :=
  λ w, let '(r, w') := m w in (inr r, w').

Notation "x <- m ;; k" := (bind m (λ x, k))
  (at level 100, m at next level, right associativity, only parsing).
Notation "m ;;; k" := (bind m (λ _, k))
  (at level 100, right associativity, only parsing).

Definition log (e : Event) : Bot unit :=
  λ w, (inr tt, {| db := db w; iface := iface w; journal := journal w ++ [e] |}).

Definition reply_text (s : string) : Bot unit := log (Sent (ReplyText s)).
Definition reply_document (content filename : string) (caption : option string) : Bot unit :=
  log (Sent (ReplyDocument content filename caption)).
Definition reply_photo (qr_of filename : string) (caption : option string) : Bot unit :=
  log (Sent (ReplyPhoto qr_of filename caption)).

(** ** Requests *)

Record Update := { effective_chat_id : Z }.

(** A handler receives the update and [context.args]. *)
Definition Handler : Type := Update → list string → Bot unit.

Inductive Command := CmdStart | CmdNewclient | CmdList | CmdConfig | CmdRevoke.

Record Request := {
  command : Command;
  update : Update;
  args : list string
}.

Definition newline : string := String (ascii_of_nat 10) EmptyString.

Section Bot.

Variable cfg : Config.
Variable env : Env.

(** Modelled from the spec: the [wg] binary is an external collaborator
    ("each either succeeds or fails with diagnostic text; no partial
    results").  A [wg set ... peer K allowed-ips A] that exits with status 0
    leaves the peer [K] on the interface with allowed-ips [A]; a
    [wg set ... peer K remove] that exits with status 0 leaves no peer [K];
    anything else leaves the interface as it was. *)
Definition wg_effect (cmd : list string) (o : RunOutcome)
    (ifc : gmap string string) : gmap string string :=
  match o with
  | Raised _ => ifc
  | Completed p =>
    if bool_decide (returncode p = 0) then
      match cmd with
      | [prog; verb; dev; kw; pub; opt; ips] =>
        if bool_decide (prog = "wg" ∧ verb = "set" ∧ dev = SERVER_INTERFACE cfg
                        ∧ kw = "peer" ∧ opt = "allowed-ips")
        then <[pub := ips]> ifc else ifc
      | [prog; verb; dev; kw; pub; opt] =>
        if bool_decide (prog = "wg" ∧ verb = "set" ∧ dev = SERVER_INTERFACE cfg
                        ∧ kw = "peer" ∧ opt = "remove")
        then delete pub ifc else ifc
      | _ => ifc
      end
    else ifc
  end.

(** [subprocess.run(cmd, input=..., capture_output=True, text=True)] *)
Definition subprocess_run (cmd : list string) (input : option string) : Bot CompletedProcess :=
  λ w,
    let o := run_outcome env (spawned w) cmd input in
    let w' := {| db := db w;
                 iface := wg_effect cmd o (iface w);
                 journal := journal w ++ [Spawn cmd input] |} in
    match o with
    | Raised msg => (inl (OSError msg), w')
    | Completed p => (inr p, w')
    end.

(** [cur.execute('INSERT INTO peers(name, private_key, public_key, address)
    VALUES (?,?,?,?)', ...); conn.commit()]: [name] is declared UNIQUE. *)
Definition execute_insert (n priv pub ip : string) : Bot unit :=
  λ w,
    if bool_decide (n ∈ name <$> db w)
    then (inl (IntegrityError "UNIQUE constraint failed: peers.name"), w)
    else
      let row := {| id := next_rowid (db w); name := n; private_key := priv;
                    public_key := pub; address := ip;
                    created_at := CURRENT_TIMESTAMP env (spawned w) |} in
      (inr tt, {| db := db w ++ [row]; iface := iface w;
                  journal := journal w ++ [Insert row] |}).

(** [cur.execute('DELETE FROM peers WHERE name=?', (name,)); conn.commit()] *)
Definition execute_delete (n : string) : Bot unit :=
  λ w, (inr tt, {| db := delete_by_name (db w) n; iface := iface w;
                   journal := journal w ++ [Delete n] |}).

Definition fetch_by_name (n : string) : Bot (option Peer) :=
  λ w, (inr (select_by_name (db w) n), w).

Definition fetch_all : Bot Table := λ w, (inr (db w), w).

(** *** Utilities *)

Definition gen_keypair : Bot (string * string) :=
  p <- subprocess_run ["wg"; "genkey"] None;;
  if bool_decide (returncode p ≠ 0)
  then raise (RuntimeError ("wg genkey failed: " +:+ stderr p))
  else
    let priv := strip (stdout p) in
    p2 <- subprocess_run ["wg"; "pubkey"] (Some priv);;
    if bool_decide (returncode p2 ≠ 0)
    then raise (RuntimeError ("wg pubkey failed: " +:+ stderr p2))
    else
      let pub := strip (stdout p2) in
      ret (priv, pub).

(** The [for i in range(...)] loop of [next_free_ip], returning at the first
    candidate outside [used]. *)
Fixpoint first_free (used : gset string) (candidates : list Z) : option string :=
  match candidates with
  | [] => None
  | i :: rest =>
    let ip := CLIENT_BASE cfg +:+ str i in
    if bool_decide (ip ∉ used) then Some ip else first_free used rest
  end.

Definition next_free_ip : Bot string :=
  t <- fetch_all;;
  let used := used_addresses t in
  match first_free used (range (CLIENT_START cfg) (CLIENT_MAX cfg + 1)) with
  | Some ip => ret ip
  | None => raise (RuntimeError "No free IPs left in pool")
  end.

Definition make_conf (client_priv client_ip : string) : string :=
  "[Interface]
PrivateKey = " +:+ client_priv +:+ "
Address = " +:+ client_ip +:+ "/32
DNS = 1.1.1.1

[Peer]
PublicKey = " +:+ SERVER_PUBLIC_KEY cfg +:+ "
Endpoint = " +:+ SERVER_PUBLIC_IP cfg +:+ ":" +:+ str (SERVER_WG_PORT cfg) +:+ "
AllowedIPs = 0.0.0.0/0, ::/0
PersistentKeepalive = 25
".

Definition apply_peer_to_interface (client_pub client_ip : string) : Bot (option string) :=
  if negb (APPLY_PEER cfg) then ret None
  else
    let cmd := ["wg"; "set"; SERVER_INTERFACE cfg; "peer"; client_pub;
                "allowed-ips"; client_ip +:+ "/32"] in
    p <- subprocess_run cmd None;;
    if bool_decide (returncode p ≠ 0)
    then raise (RuntimeError ("wg set failed: " +:+ stderr p))
    else ret (Some (stdout p)).

(** *** Telegram handlers *)

(** [ADMIN_CHAT_ID and str(update.effective_chat.id) != str(ADMIN_CHAT_ID)] *)
Definition not_admin (update : Update) : bool :=
  match ADMIN_CHAT_ID cfg with
  | Some a => bool_decide (a ≠ "") && bool_decide (str (effective_chat_id update) ≠ a)
  | None => false
  end.

Definition start : Handler := λ update args,
  reply_text "Привет! Я генерирую WireGuard-конфиги. Используй /newclient <name>.".

Definition newclient : Handler := λ update args,
  match args with
  | [] => reply_text "Использование: /newclient <client_name>"
  | name :: _ =>
    r <- try (kp <- gen_keypair;; ip <- next_free_ip;; ret (kp, ip));;
    match r with
    | inl e => reply_text ("Ошибка: " +:+ exn_str e)
    | inr (priv, pub, ip) =>
      r <- try (execute_insert name priv pub ip);;
      match r with
      | inl (IntegrityError _) => reply_text "Клиент с таким именем уже существует."
      | inl e => raise e
      | inr _ =>
        r <- try (apply_peer_to_interface pub ip);;
        match r with
        | inl e => reply_text ("Не удалось применить к интерфейсу: " +:+ exn_str e)
        | inr _ => ret tt
        end;;;
        let conf_text := make_conf priv ip in
        reply_document conf_text (name +:+ ".conf")
          (Some ("Config " +:+ name +:+ " (" +:+ ip +:+ ")"));;;
        if qrcode cfg
        then reply_photo conf_text (name +:+ ".png") (Some "QR")
        else ret tt
      end
    end
  end.

Definition list_clients : Handler := λ update args,
  if not_admin update
  then reply_text "Только администратор может смотреть список клиентов."
  else
    rows <- fetch_all;;
    match rows with
    | [] => reply_text "Нет клиентов"
    | _ =>
      let lines := "Список клиентов:" ::
        ((λ r, name r +:+ " — " +:+ address r +:+ " — " +:+ created_at r) <$> rows) in
      reply_text (String.concat newline lines)
    end.

Definition get_config : Handler := λ update args,
  match args with
  | [] => reply_text "Использование: /config <client_name>"
  | name :: _ =>
    row <- fetch_by_name name;;
    match row with
    | None => reply_text "Клиент не найден"
    | Some row =>
      let priv := private_key row in
      let ip := address row in
      let conf_text := make_conf priv ip in
      reply_document conf_text (name +:+ ".conf") None;;;
      if qrcode cfg
      then reply_photo conf_text (name +:+ ".png") None
      else ret tt
    end
  end.

Definition revoke : Handler := λ update args,
  match args with
  | [] => reply_text "Использование: /revoke <client_name>"
  | name :: _ =>
    if not_admin update
    then reply_text "Только администратор может отзывать клиентов."
    else
      row <- fetch_by_name name;;
      match row with
      | None => reply_text "Клиент не найден"
      | Some row =>
        let pub := public_key row in
        let ip := address row in
        (if APPLY_PEER cfg then
           r <- try (subprocess_run ["wg"; "set"; SERVER_INTERFACE cfg; "peer"; pub; "remove"] None);;
           match r with
           | inl e => reply_text ("Не удалось удалить peer: " +:+ exn_str e)
           | inr _ => ret tt
           end
         else ret tt);;;
        execute_delete name;;;
        reply_text ("Клиент " +:+ name +:+ " (" +:+ ip +:+ ") удалён")
      end
  end.

(** *** Dispatch, as registered in [main] *)

Definition dispatch (rq : Request) : Bot unit :=
  match command rq with
  | CmdStart => start (update rq) (args rq)
  | CmdNewclient => newclient (update rq) (args rq)
  | CmdList => list_clients (update rq) (args rq)
  | CmdConfig => get_config (update rq) (args rq)
  | CmdRevoke => revoke (update rq) (args rq)
  end.

(** Requests handled one after the other, each on the world its predecessor
    left; an exception escaping a handler ends that request only. *)
Definition run (rqs : list Request) (w : World) : World :=
  foldl (λ w rq, (dispatch rq w).2) w rqs.

End Bot.

(** ** The older, file-based bot ([wg_bot.py]) *)

Module Legacy.

(** There [SERVER_WG_PORT] stays the text read from the environment. *)
Definition build_client_config (SERVER_PUBLIC_KEY SERVER_PUBLIC_IP SERVER_WG_PORT : string)
    (name private_key : string) : string :=
  "
[Interface]
PrivateKey = " +:+ private_key +:+ "
Address = 10.0.0.2/32
DNS = 1.1.1.1

[Peer]
PublicKey = " +:+ SERVER_PUBLIC_KEY +:+ "
Endpoint = " +:+ SERVER_PUBLIC_IP +:+ ":" +:+ SERVER_WG_PORT +:+ "
AllowedIPs = 0.0.0.0/0
PersistentKeepalive = 25
".

End Legacy.

(** ** Vocabulary of the statements *)

(** The events a call added to the journal, and the replies among them. *)
Definition new_events (w w' : World) : list Event :=
  drop (length (journal w)) (journal w').

Definition replies (evs : list Event) : list Reply :=
  omap (λ e, match e with Sent r => Some r | _ => None end) evs.

(** An address of the configured pool: the base followed by a host number
    of the inclusive range. *)
Definition in_pool (cfg : Config) (a : string) : Prop :=
  ∃ i, CLIENT_START cfg ≤ i ≤ CLIENT_MAX cfg ∧ a = CLIENT_BASE cfg +:+ str i.

(** Every peer of the interface is the public key of a registry row. *)
Definition iface_within_registry (w : World) : Prop :=
  ∀ k, k ∈ dom (iface w) → k ∈ public_key <$> db w.

(** The table satisfies the address invariants. *)
Definition addresses_ok (cfg : Config) (t : Table) : Prop :=
  NoDup (address <$> t) ∧ Forall (in_pool cfg) (address <$> t).

(** From call number [n] on, [wg genkey] and then [wg pubkey] exit with
    status 0 and print [priv] and [pub] (up to surrounding white space). *)
Definition keygen_at (env : Env) (n : nat) (priv pub : string) : Prop :=
  ∃ p1 p2,
    run_outcome env n ["wg"; "genkey"] None = Completed p1 ∧ returncode p1 = 0
    ∧ priv = strip (stdout p1)
    ∧ run_outcome env (S n) ["wg"; "pubkey"] (Some priv) = Completed p2
    ∧ returncode p2 = 0 ∧ pub = strip (stdout p2).

(** Key generation never fails. *)
Definition keygen_works (env : Env) : Prop :=
  ∀ n input,
    (∃ p, run_outcome env n ["wg"; "genkey"] input = Completed p ∧ returncode p = 0)
    ∧ (∃ p, run_outcome env n ["wg"; "pubkey"] input = Completed p ∧ returncode p = 0).

(** The row [newclient] inserts. *)
Definition new_row (env : Env) (w : World) (n priv pub ip : string) : Peer :=
  {| id := next_rowid (db w); name := n; private_key := priv; public_key := pub;
     address := ip; created_at := CURRENT_TIMESTAMP env (S (S (spawned w))) |}.

(** Events that neither write the table nor address the interface: the two
    key-generation processes and replies. *)
Definition keygen_or_reply (e : Event) : Prop :=
  match e with
  | Spawn cmd _ => cmd = ["wg"; "genkey"] ∨ cmd = ["wg"; "pubkey"]
  | Sent _ => True
  | Insert _ | Delete _ => False
  end.

Definition is_sent (e : Event) : Prop :=
  match e with Sent _ => True | _ => False end.

(** The command line of [apply_peer_to_interface]. *)
Definition apply_cmd (cfg : Config) (pub ip : string) : list string :=
  ["wg"; "set"; SERVER_INTERFACE cfg; "peer"; pub; "allowed-ips"; ip +:+ "/32"].

(** The command line [revoke] runs. *)
Definition remove_cmd (cfg : Config) (pub : string) : list string :=
  ["wg"; "set"; SERVER_INTERFACE cfg; "peer"; pub; "remove"].

(** The exception [apply_peer_to_interface] raises on outcome [o], if any. *)
Definition apply_failure (o : RunOutcome) (e : Exn) : Prop :=
  match o with
  | Raised msg => e = OSError msg
  | Completed p => returncode p ≠ 0 ∧ e = RuntimeError ("wg set failed: " +:+ stderr p)
  end.

(** The profile format in the specification's words: sections in order,
    each a bracketed title line followed by one [Key = Value] line per
    field; sections separated by an empty line. *)
Definition render_field (kv : string * string) : string :=
  kv.1 +:+ " = " +:+ kv.2 +:+ newline.

Definition render_section (sec : string * list (string * string)) : string :=
  "[" +:+ sec.1 +:+ "]" +:+ newline +:+ String.concat "" (render_field <$> sec.2).

Definition render_document (secs : list (string * list (string * string))) : string :=
  String.concat newline (render_section <$> secs).

(** Every removal [revoke] may attempt exits with status 0. *)
Definition removals_succeed (cfg : Config) (env : Env) : Prop :=
  ∀ k pub, ∃ p,
    run_outcome env k (remove_cmd cfg pub) None = Completed p ∧ returncode p = 0.

(** What holds between requests as long as removals succeed. *)
Definition registry_inv (cfg : Config) (w : World) : Prop :=
  NoDup (name <$> db w) ∧ iface_within_registry w
  ∧ (APPLY_PEER cfg = false → iface w = ∅).

(** The host numbers [next_free_ip] tries, in the order it tries them. *)
Definition pool (cfg : Config) : list Z :=
  range (CLIENT_START cfg) (CLIENT_MAX cfg + 1).

(** ** Sample configuration and toolchains *)

Module Demo.

Definition cfg : Config := {|
  TOKEN := "t"; ADMIN_CHAT_ID := Some "1000"; DB_PATH := "wg_bot.db";
  SERVER_PUBLIC_IP := "203.0.113.7"; SERVER_WG_PORT := 51820;
  SERVER_PUBLIC_KEY := "SRVPUB"; SERVER_INTERFACE := "wg0";
  CLIENT_BASE := "10.0.0."; CLIENT_START := 2; CLIENT_MAX := 3;
  APPLY_PEER := true; qrcode := false |}.

Definition ok (out : string) : RunOutcome :=
  Completed {| returncode := 0; stdout := out; stderr := "" |}.

Definition failed (rc : Z) (err : string) : RunOutcome :=
  Completed {| returncode := rc; stdout := ""; stderr := err |}.

(** A toolchain that always works; keys are numbered by the call. *)
Definition good_env : Env := {|
  run_outcome := λ n cmd input,
    match cmd with
    | [_; verb] =>
      if bool_decide (verb = "genkey") then ok ("priv" +:+ pretty n +:+ newline)
      else ok ("pub" +:+ pretty n +:+ newline)
    | _ => ok ""
    end;
  CURRENT_TIMESTAMP := λ n, "2024-01-01 00:00:0" +:+ pretty n |}.

(** A pool holding a single address. *)
Definition single_cfg : Config := {|
  TOKEN := "t"; ADMIN_CHAT_ID := Some "1000"; DB_PATH := "wg_bot.db";
  SERVER_PUBLIC_IP := "203.0.113.7"; SERVER_WG_PORT := 51820;
  SERVER_PUBLIC_KEY := "SRVPUB"; SERVER_INTERFACE := "wg0";
  CLIENT_BASE := "10.0.0."; CLIENT_START := 2; CLIENT_MAX := 2;
  APPLY_PEER := true; qrcode := false |}.

(** A toolchain that generates keys but cannot change the interface: every
    [wg set] exits with status 1. *)
Definition readonly_env : Env := {|
  run_outcome := λ n cmd input,
    match cmd with
    | [_; verb] =>
      if bool_decide (verb = "genkey") then ok ("priv" +:+ pretty n +:+ newline)
      else ok ("pub" +:+ pretty n +:+ newline)
    | _ => failed 1 "Unable to modify interface: Operation not permitted"
    end;
  CURRENT_TIMESTAMP := λ n, "2024-01-01 00:00:0" +:+ pretty n |}.

(** A toolchain on which peers can be added but not removed. *)
Definition sticky_env : Env := {|
  run_outcome := λ n cmd input,
    match cmd with
    | [_; verb] =>
      if bool_decide (verb = "genkey") then ok ("priv" +:+ pretty n +:+ newline)
      else ok ("pub" +:+ pretty n +:+ newline)
    | [_; _; _; _; _; _] => failed 1 "Unable to modify interface: Operation not permitted"
    | _ => ok ""
    end;
  CURRENT_TIMESTAMP := λ n, "2024-01-01 00:00:0" +:+ pretty n |}.

Definition admin : Update := {| effective_chat_id := 1000 |}.
Definition guest : Update := {| effective_chat_id := 7 |}.

Definition rq (c : Command) (u : Update) (a : list string) : Request :=
  {| command := c; update := u; args := a |}.

End Demo.

(** ** Key generation of the older bot ([wg_bot.py]) *)

Module LegacyKeys.

(** [subprocess.check_output] raises [CalledProcessError] on a non-zero exit
    status and lets the exception of a failed spawn through. *)
Inductive Exn :=
  | CalledProcessError (returncode : Z) (cmd : list string)
  | OSError (msg : string).

Section Keys.

Variable cfg : Config.
Variable env : Env.



End Keys.

End LegacyKeys.

(** ** Further vocabulary *)

(** No process other than the two key-generation commands. *)
Definition no_wg_set (e : Event) : Prop :=
  match e with
  | Spawn cmd _ => cmd = ["wg"; "genkey"] ∨ cmd = ["wg"; "pubkey"]
  | _ => True
  end.

(** One line of the listing. *)
Definition listing_line (r : Peer) : string :=
  name r +:+ " — " +:+ address r +:+ " — " +:+ created_at r.

(** ** Further sample configurations and toolchains *)

Module Samples.



(** The [wg] binary is not installed. *)
Definition absent_env : Env := {|
  run_outcome := λ n cmd input, Raised "[Errno 2] No such file or directory: 'wg'";
  CURRENT_TIMESTAMP := λ n, "2024-01-01 00:00:00" |}.

(** No administrator configured. *)
Definition open_cfg : Config := {|
  TOKEN := "t"; ADMIN_CHAT_ID := None; DB_PATH := "wg_bot.db";
  SERVER_PUBLIC_IP := "203.0.113.7"; SERVER_WG_PORT := 51820;
  SERVER_PUBLIC_KEY := "SRVPUB"; SERVER_INTERFACE := "wg0";
  CLIENT_BASE := "10.0.0."; CLIENT_START := 2; CLIENT_MAX := 3;
  APPLY_PEER := true; qrcode := false |}.

(** Live mutation switched off. *)
Definition offline_cfg : Config := {|
  TOKEN := "t"; ADMIN_CHAT_ID := Some "1000"; DB_PATH := "wg_bot.db";
  SERVER_PUBLIC_IP := "203.0.113.7"; SERVER_WG_PORT := 51820;
  SERVER_PUBLIC_KEY := "SRVPUB"; SERVER_INTERFACE := "wg0";
  CLIENT_BASE := "10.0.0."; CLIENT_START := 2; CLIENT_MAX := 3;
  APPLY_PEER := false; qrcode := false |}.


(** A range whose end lies below its start. *)
Definition void_cfg : Config := {|
  TOKEN := "t"; ADMIN_CHAT_ID := Some "1000"; DB_PATH := "wg_bot.db";
  SERVER_PUBLIC_IP := "203.0.113.7"; SERVER_WG_PORT := 51820;
  SERVER_PUBLIC_KEY := "SRVPUB"; SERVER_INTERFACE := "wg0";
  CLIENT_BASE := "10.0.0."; CLIENT_START := 5; CLIENT_MAX := 4;
  APPLY_PEER := true; qrcode := false |}.

(** The row of the first client on the sample toolchain. *)
Definition alice_row : Peer :=
  {| id := 1; name := "alice"; private_key := "priv0"; public_key := "pub1";
     address := "10.0.0.2"; created_at := "2024-01-01 00:00:02" |}.

(** The world after [/newclient alice] on the sample configuration. *)
Definition alice_world : World :=
  run Demo.cfg Demo.good_env [Demo.rq CmdNewclient Demo.guest ["alice"]] init_world.

End Samples.

(** * Properties *)

(** ** Tools for running handler code symbolically *)

Lemma spawn_count_snoc j e :
  spawn_count (j ++ [e]) = if is_spawn e then S (spawn_count j) else spawn_count j.
Proof.
  unfold spawn_count. rewrite filter_app, length_app, filter_cons, filter_nil.
  destruct (is_spawn e); cbn.
  - case_decide; [cbn; lia | done].
  - case_decide; [done | cbn; lia].
Qed.

Lemma string_app_assoc (s1 s2 s3 : string) : (s1 +:+ s2) +:+ s3 = s1 +:+ s2 +:+ s3.
Proof.
  induction s1 as [|c s1 IH]; [done|].
  change (String c ((s1 +:+ s2) +:+ s3) = String c (s1 +:+ s2 +:+ s3)).
  by f_equal.
Qed.

Lemma wg_effect_two cfg a b o ifc : wg_effect cfg [a; b] o ifc = ifc.
Proof. unfold wg_effect. destruct o; [done|]. by case_bool_decide. Qed.

Lemma wg_effect_failure cfg cmd o e ifc :
  apply_failure o e → wg_effect cfg cmd o ifc = ifc.
Proof.
  unfold wg_effect. destruct o as [msg|p]; [done|]. intros [Hrc _].
  by rewrite bool_decide_eq_false_2.
Qed.

(** Symbolic execution of handler code: unfold the monad, use what the
    hypotheses say about the oracle and the table, split on the rest. *)
Ltac exec_unfold :=
  unfold start, newclient, list_clients, get_config, revoke,
    gen_keypair, next_free_ip, apply_peer_to_interface,
    subprocess_run, execute_insert, execute_delete, fetch_all, fetch_by_name,
    reply_text, reply_document, reply_photo, log, bind, ret, raise, try,
    spawned.

Ltac exec_known :=
  match goal with
  | H : run_outcome ?e ?n ?c ?i = _ |- context [run_outcome ?e ?n ?c ?i] => rewrite H
  | H : first_free ?c ?u ?l = _ |- context [first_free ?c ?u ?l] => rewrite H
  | H : APPLY_PEER ?c = _ |- context [APPLY_PEER ?c] => rewrite H
  | H : qrcode ?c = _ |- context [qrcode ?c] => rewrite H
  | H : select_by_name ?t ?n = _ |- context [select_by_name ?t ?n] => rewrite H
  | H : not_admin ?c ?u = _ |- context [not_admin ?c ?u] => rewrite H
  | H : ?P |- context [bool_decide ?P] => rewrite (bool_decide_eq_true_2 P H)
  | H : ¬ ?P |- context [bool_decide ?P] => rewrite (bool_decide_eq_false_2 P H)
  | H : ?x = ?y |- context [bool_decide (?x ≠ ?y)] =>
    rewrite (bool_decide_eq_false_2 (x ≠ y) (λ K, K H))
  end.

Ltac exec_split :=
  match goal with
  | |- context [run_outcome ?e ?n ?c ?i] =>
    let E := fresh "Hrun" in destruct (run_outcome e n c i) eqn:E
  | |- context [bool_decide ?P] =>
    let E := fresh "Hdec" in destruct (bool_decide_reflect P) as [E|E]
  | |- context [first_free ?c ?u ?l] =>
    let E := fresh "Hfree" in destruct (first_free c u l) eqn:E
  | |- context [APPLY_PEER ?c] => destruct (APPLY_PEER c) eqn:?
  | |- context [qrcode ?c] => destruct (qrcode c) eqn:?
  | |- context [select_by_name ?t ?n] => destruct (select_by_name t n) eqn:?
  | |- context [not_admin ?c ?u] => destruct (not_admin c u) eqn:?
  end.

Ltac exec_simpl :=
  first
    [ progress cbn beta iota zeta delta [db iface journal fst snd negb is_spawn]
    | rewrite spawn_count_snoc
    | rewrite wg_effect_two ].

Ltac exec := exec_unfold; repeat first [ exec_simpl | exec_known | exec_split ].

(** Like [exec], but never splits: every choice must follow from the
    hypotheses. *)
Ltac exec_det := exec_unfold; repeat first [ exec_simpl | exec_known ].

Ltac events :=
  unfold new_events; cbn [journal];
  repeat first [ rewrite drop_app_length | rewrite <- app_assoc ];
  cbn [app replies omap].

(** ** Lemmas on the handlers, for a fixed configuration and toolchain *)

Section Proofs.
Variable cfg : Config.
Variable env : Env.

(** *** The allocator's loop *)

Lemma elem_of_range a b k : k ∈ range a b ↔ a ≤ k < b.
Proof. unfold range. rewrite elem_of_seqZ. lia. Qed.

Lemma first_free_Some used l ip :
  first_free cfg used l = Some ip →
  ∃ pre i post, l = pre ++ i :: post ∧ ip = CLIENT_BASE cfg +:+ str i
    ∧ (ip ∉ used) ∧ (∀ j, j ∈ pre → CLIENT_BASE cfg +:+ str j ∈ used).
Proof.
  induction l as [|i l IH]; cbn [first_free]; [done|].
  destruct (bool_decide_reflect (CLIENT_BASE cfg +:+ str i ∉ used)) as [Hi|Hi].
  - intros [= <-]. exists [], i, l. split_and!; [done..|]. intros j Hj. inversion Hj.
  - intros (pre & k & post & -> & -> & Hk & Hpre)%IH.
    exists (i :: pre), k, post. split_and!; [done..|].
    intros j [->|Hj]%elem_of_cons; [|by apply Hpre].
    destruct (decide (CLIENT_BASE cfg +:+ str i ∈ used)); [done|by destruct Hi].
Qed.

Lemma first_free_None used l :
  first_free cfg used l = None →
  ∀ j, j ∈ l → CLIENT_BASE cfg +:+ str j ∈ used.
Proof.
  induction l as [|i l IH]; cbn [first_free]; intros H j Hj; [inversion Hj|].
  destruct (bool_decide_reflect (CLIENT_BASE cfg +:+ str i ∉ used)) as [Hi|Hi]; [done|].
  apply elem_of_cons in Hj as [->|Hj]; [|by apply IH].
  destruct (decide (CLIENT_BASE cfg +:+ str i ∈ used)); [done|by destruct Hi].
Qed.

Lemma seqZ_split m n pre i post :
  seqZ m n = pre ++ i :: post →
  m ≤ i < m + n ∧ ∀ j, j ∈ pre ↔ m ≤ j < i.
Proof.
  intros H.
  assert (Hlen : pre !! length pre = None ∧ (pre ++ i :: post) !! length pre = Some i).
  { split; [by apply lookup_ge_None|]. by rewrite list_lookup_middle. }
  destruct Hlen as [_ Hi]. rewrite <- H in Hi.
  apply lookup_seqZ in Hi as [Hi Hlt].
  split; [lia|]. intros j. split.
  - intros [k Hk]%list_elem_of_lookup.
    assert (Hk' : seqZ m n !! k = Some j).
    { rewrite H. by apply lookup_app_l_Some. }
    apply lookup_seqZ in Hk' as [-> ?].
    apply lookup_lt_Some in Hk. lia.
  - intros Hj. apply list_elem_of_lookup. exists (Z.to_nat (j - m)).
    assert (Hk' : seqZ m n !! Z.to_nat (j - m) = Some j).
    { apply lookup_seqZ. lia. }
    rewrite H in Hk'. rewrite lookup_app_l in Hk'; [done|lia].
Qed.

Lemma first_free_range_Some used ip :
  first_free cfg used (range (CLIENT_START cfg) (CLIENT_MAX cfg + 1)) = Some ip →
  ∃ i, CLIENT_START cfg ≤ i ≤ CLIENT_MAX cfg ∧ ip = CLIENT_BASE cfg +:+ str i
    ∧ (ip ∉ used)
    ∧ (∀ j, CLIENT_START cfg ≤ j < i → CLIENT_BASE cfg +:+ str j ∈ used).
Proof.
  intros (pre & i & post & Hl & -> & Hfree & Hpre)%first_free_Some.
  apply seqZ_split in Hl as [Hi Hin].
  exists i. split_and!; [lia..|done|done|].
  intros j Hj. apply Hpre, Hin. lia.
Qed.

(** *** How one request changes the table and the interface *)

Lemma step_cases rq w :
  let w' := (dispatch cfg env rq w).2 in
  (db w' = db w ∧ iface w' = iface w)
  ∨ (∃ row, db w' = db w ++ [row]
       ∧ first_free cfg (used_addresses (db w)) (pool cfg) = Some (address row)
       ∧ (name row ∉ name <$> db w)
       ∧ ((APPLY_PEER cfg = false ∧ iface w' = iface w)
          ∨ (APPLY_PEER cfg = true ∧ ∃ o,
               iface w' = wg_effect cfg (apply_cmd cfg (public_key row) (address row))
                            o (iface w)))
       ∧ id row = next_rowid (db w))
  ∨ (∃ n row, select_by_name (db w) n = Some row
       ∧ db w' = delete_by_name (db w) n
       ∧ ((APPLY_PEER cfg = false ∧ iface w' = iface w)
          ∨ (APPLY_PEER cfg = true
             ∧ iface w' = wg_effect cfg (remove_cmd cfg (public_key row))
                 (run_outcome env (spawned w) (remove_cmd cfg (public_key row)) None)
                 (iface w)))).
Proof.
  destruct rq as [c u a]. destruct c; cbn [dispatch command update args].
  - left. done.
  - destruct a as [|nm a]; [by left|].
    unfold pool, apply_cmd. exec.
    all: try (by left).
    all: right; left; eexists; split; [reflexivity|]; cbn [address public_key name id];
      (split_and!; [done..| |done]).
    all: first [ by left | right; split; [done|]; by eexists ].
  - exec. all: left. all: try done.
    all: destruct (db w) eqn:E; cbn; by rewrite ?E.
  - destruct a as [|nm a]; [by left|]. exec; by left.
  - destruct a as [|nm a]; [by left|].
    unfold remove_cmd, spawned. exec.
    all: try (by left).
    all: right; right; eexists _, _; split; [eassumption|]; split; [reflexivity|].
    all: first [ by left | right; split; [done|]; cbn [iface];
                 by rewrite ?Hrun ].
Qed.

Lemma addresses_ok_step rq w :
  addresses_ok cfg (db w) → addresses_ok cfg (db (dispatch cfg env rq w).2).
Proof.
  intros [Hnd Hin].
  destruct (step_cases rq w) as [[-> _]|[(row & -> & Hfree & _)|(n & _ & _ & -> & _)]].
  - done.
  - apply first_free_range_Some in Hfree as (i & Hi & Hip & Hfresh & _).
    split.
    + rewrite fmap_app. apply NoDup_app. split_and!; [done| |apply NoDup_singleton].
      intros a Ha ->%list_elem_of_singleton. apply Hfresh.
      unfold used_addresses. by apply elem_of_list_to_set.
    + rewrite fmap_app. apply Forall_app. split; [done|].
      apply Forall_singleton. by exists i.
  - assert (Hsub : (address <$> delete_by_name (db w) n) `sublist_of` (address <$> db w)).
    { apply fmap_sublist, sublist_filter. }
    split; [by eapply sublist_NoDup|].
    apply Forall_forall. intros a Ha.
    eapply Forall_forall; [exact Hin|]. by eapply elem_of_sublist.
Qed.

Lemma run_snoc rqs rq w :
  run cfg env (rqs ++ [rq]) w = (dispatch cfg env rq (run cfg env rqs w)).2.
Proof. unfold run. by rewrite foldl_app. Qed.

(** *** [newclient], path by path *)

Lemma keygen_works_at n : keygen_works env → ∃ priv pub, keygen_at env n priv pub.
Proof.
  intros H. destruct (H n None) as [(p1 & H1 & R1) _].
  destruct (H (S n) (Some (strip (stdout p1)))) as [_ (p2 & H2 & R2)].
  exists (strip (stdout p1)), (strip (stdout p2)), p1, p2. by split_and!.
Qed.

Lemma newclient_pool_exhausted u n rest w priv pub :
  keygen_at env (spawned w) priv pub →
  first_free cfg (used_addresses (db w)) (pool cfg) = None →
  let w' := (newclient cfg env u (n :: rest) w).2 in
  db w' = db w ∧ iface w' = iface w
  ∧ new_events w w' = [Spawn ["wg"; "genkey"] None; Spawn ["wg"; "pubkey"] (Some priv);
                       Sent (ReplyText "Ошибка: No free IPs left in pool")].
Proof.
  intros (p1 & p2 & H1 & R1 & -> & H2 & R2 & ->) Hfree.
  unfold pool, spawned in *. exec_det. split_and!; [done..|]. by events.
Qed.

Lemma newclient_duplicate u n rest w priv pub ip :
  keygen_at env (spawned w) priv pub →
  first_free cfg (used_addresses (db w)) (pool cfg) = Some ip →
  n ∈ name <$> db w →
  let w' := (newclient cfg env u (n :: rest) w).2 in
  db w' = db w ∧ iface w' = iface w
  ∧ new_events w w' = [Spawn ["wg"; "genkey"] None; Spawn ["wg"; "pubkey"] (Some priv);
                       Sent (ReplyText "Клиент с таким именем уже существует.")].
Proof.
  intros (p1 & p2 & H1 & R1 & -> & H2 & R2 & ->) Hfree Hn.
  unfold pool, spawned in *. exec_det. split_and!; [done..|]. by events.
Qed.

Lemma newclient_fresh u n rest w priv pub ip :
  keygen_at env (spawned w) priv pub →
  first_free cfg (used_addresses (db w)) (pool cfg) = Some ip →
  n ∉ name <$> db w →
  let w' := (newclient cfg env u (n :: rest) w).2 in
  db w' = db w ++ [new_row env w n priv pub ip]
  ∧ ReplyDocument (make_conf cfg priv ip) (n +:+ ".conf")
      (Some ("Config " +:+ n +:+ " (" +:+ ip +:+ ")")) ∈ replies (new_events w w').
Proof.
  intros (p1 & p2 & H1 & R1 & -> & H2 & R2 & ->) Hfree Hn.
  unfold pool, spawned, new_row in *. exec.
  all: split; [done|]; events; set_solver.
Qed.

(** *** Lookups in a table with unique names *)

Lemma filter_name_absent (t : Table) n :
  n ∉ name <$> t → filter (λ r, name r = n) t = [].
Proof.
  induction t as [|r t IH]; [done|]. rewrite fmap_cons, not_elem_of_cons.
  intros [Hr Ht]. rewrite filter_cons. case_decide; [congruence|by apply IH].
Qed.

Lemma count_named_unique (t : Table) n :
  NoDup (name <$> t) → n ∈ name <$> t →
  length (filter (λ r, name r = n) t) = 1%nat.
Proof.
  induction t as [|r t IH]; [by intros _ ?%elem_of_nil|].
  rewrite fmap_cons, NoDup_cons. intros [Hr Ht] Hin. rewrite filter_cons.
  case_decide as Hn.
  - subst n. by rewrite filter_name_absent.
  - apply elem_of_cons in Hin as [?|Hin]; [congruence|by apply IH].
Qed.

Lemma select_by_name_snoc (t : Table) row :
  name row ∉ name <$> t → select_by_name (t ++ [row]) (name row) = Some row.
Proof.
  intros H. unfold select_by_name. rewrite filter_app, filter_name_absent by done.
  rewrite filter_cons. by case_decide.
Qed.

(** *** The interface stays within the registry *)

Lemma wg_effect_apply_dom pub ip o ifc k :
  k ∈ dom (wg_effect cfg (apply_cmd cfg pub ip) o ifc) → k = pub ∨ k ∈ dom ifc.
Proof.
  unfold wg_effect, apply_cmd. destruct o as [msg|p]; [by right|].
  repeat case_bool_decide; try by right.
  rewrite dom_insert_L. set_solver.
Qed.

Lemma wg_effect_remove_ok pub p ifc :
  returncode p = 0 →
  wg_effect cfg (remove_cmd cfg pub) (Completed p) ifc = delete pub ifc.
Proof.
  intros Hp. unfold wg_effect, remove_cmd.
  rewrite bool_decide_eq_true_2 by done. by rewrite bool_decide_eq_true_2.
Qed.

Lemma select_by_name_Some (t : Table) n row :
  select_by_name t n = Some row → row ∈ t ∧ name row = n.
Proof.
  unfold select_by_name. intros H.
  assert (Hin : row ∈ filter (λ r, name r = n) t).
  { destruct (filter _ t) as [|r l]; [done|]. injection H as ->. apply list_elem_of_here. }
  by apply list_elem_of_filter in Hin as [? ?].
Qed.

Lemma unique_name_row (t : Table) r1 r2 :
  NoDup (name <$> t) → r1 ∈ t → r2 ∈ t → name r1 = name r2 → r1 = r2.
Proof.
  induction t as [|r t IH]; [by intros _ ?%elem_of_nil|].
  rewrite fmap_cons, NoDup_cons. intros [Hr Ht] H1 H2 Hn.
  apply elem_of_cons in H1 as [->|H1]; apply elem_of_cons in H2 as [->|H2].
  - done.
  - destruct Hr. rewrite Hn. by apply list_elem_of_fmap_2.
  - destruct Hr. rewrite <- Hn. by apply list_elem_of_fmap_2.
  - by apply IH.
Qed.

Lemma registry_inv_step rq w :
  removals_succeed cfg env →
  registry_inv cfg w → registry_inv cfg (dispatch cfg env rq w).2.
Proof.
  intros Hrm (Hnd & Hsub & Hoff). unfold registry_inv, iface_within_registry in *.
  destruct (step_cases rq w)
    as [[-> ->]|[(row & -> & _ & Hfresh & Hif & _)|(n & row & Hsel & -> & Hif)]].
  - done.
  - split_and!.
    + rewrite fmap_app. apply NoDup_app. split_and!; [done| |apply NoDup_singleton].
      by intros a Ha ->%list_elem_of_singleton.
    + intros k Hk. rewrite fmap_app, elem_of_app.
      destruct Hif as [[_ E]|[_ [o E]]]; rewrite E in Hk.
      * left. by apply Hsub.
      * apply wg_effect_apply_dom in Hk as [->|Hk]; [|left; by apply Hsub].
        right. apply list_elem_of_singleton. done.
    + intros Hf. destruct Hif as [[_ ->]|[? _]]; [by apply Hoff|congruence].
  - apply select_by_name_Some in Hsel as [Hrow Hname].
    split_and!.
    + eapply sublist_NoDup; [exact Hnd|]. apply fmap_sublist, sublist_filter.
    + intros k Hk. destruct Hif as [[Hf E]|[_ E]]; rewrite E in Hk.
      * rewrite (Hoff Hf) in Hk. set_solver.
      * destruct (Hrm (spawned w) (public_key row)) as (p & Hp & Hrc).
        rewrite Hp, wg_effect_remove_ok in Hk by done.
        rewrite dom_delete_L in Hk. apply elem_of_difference in Hk as [Hk Hne].
        apply Hsub in Hk. apply list_elem_of_fmap in Hk as (r & -> & Hr).
        apply list_elem_of_fmap_2. apply list_elem_of_filter. split; [|done].
        intros Hrn. apply Hne, elem_of_singleton. f_equal.
        apply (unique_name_row (db w)); [done..|congruence].
    + intros Hf. destruct Hif as [[_ ->]|[? _]]; [by apply Hoff|congruence].
Qed.

Lemma registry_inv_run rqs :
  removals_succeed cfg env → registry_inv cfg (run cfg env rqs init_world).
Proof.
  intros Hrm. induction rqs as [|rq rqs IH] using rev_ind.
  - split_and!; [apply NoDup_nil_2| |done]. intros k Hk. cbn in Hk. set_solver.
  - rewrite run_snoc. by apply registry_inv_step.
Qed.

Lemma names_unique_run rqs : NoDup (name <$> db (run cfg env rqs init_world)).
Proof.
  induction rqs as [|rq rqs IH] using rev_ind; [apply NoDup_nil_2|].
  rewrite run_snoc.
  destruct (step_cases rq (run cfg env rqs init_world))
    as [[-> _]|[(row & -> & _ & Hfresh & _)|(n & _ & _ & -> & _)]].
  - done.
  - rewrite fmap_app. apply NoDup_app. split_and!; [done| |apply NoDup_singleton].
    by intros a Ha ->%list_elem_of_singleton.
  - eapply sublist_NoDup; [exact IH|]. apply fmap_sublist, sublist_filter.
Qed.

(** Rows stay in rowid order, so the stored order is that of
    [SELECT ... ORDER BY id]. *)
Lemma next_rowid_above (t : Table) r : r ∈ t → id r < next_rowid t.
Proof.
  unfold next_rowid. induction t as [|r' t IH]; [by intros ?%elem_of_nil|].
  rewrite fmap_cons. cbn [foldr]. intros [->|Hr]%elem_of_cons; [lia|].
  specialize (IH Hr). lia.
Qed.

Lemma StronglySorted_filter {A} (R : relation A) (P : A → Prop)
    `{!∀ x, Decision (P x)} (l : list A) :
  StronglySorted R l → StronglySorted R (filter P l).
Proof.
  induction 1 as [|x l Hl IH Hx]; [constructor|].
  rewrite filter_cons. case_decide; [|done]. constructor; [done|].
  apply Forall_forall. intros y [_ Hy]%list_elem_of_filter.
  by eapply Forall_forall in Hx.
Qed.

Lemma rowids_sorted_run rqs :
  StronglySorted (λ r1 r2, id r1 < id r2) (db (run cfg env rqs init_world)).
Proof.
  induction rqs as [|rq rqs IH] using rev_ind; [constructor|].
  rewrite run_snoc.
  destruct (step_cases rq (run cfg env rqs init_world))
    as [[-> _]|[(row & -> & _ & _ & _ & Hid)|(n & _ & _ & -> & _)]].
  - done.
  - apply StronglySorted_app_2; [|done|repeat constructor].
    intros r1 r2 H1 ->%list_elem_of_singleton. rewrite Hid. by apply next_rowid_above.
  - by apply StronglySorted_filter.
Qed.

(** *** [revoke]: what the caller hears about the removal *)

(** The removal process could not be started: the exception is reported,
    the row is deleted. *)
Lemma revoke_removal_raised u n rest w row msg :
  APPLY_PEER cfg = true → not_admin cfg u = false →
  select_by_name (db w) n = Some row →
  run_outcome env (spawned w) (remove_cmd cfg (public_key row)) None = Raised msg →
  let w' := (revoke cfg env u (n :: rest) w).2 in
  db w' = delete_by_name (db w) n
  ∧ new_events w w' =
      [Spawn (remove_cmd cfg (public_key row)) None;
       Sent (ReplyText ("Не удалось удалить peer: " +:+ msg));
       Delete n;
       Sent (ReplyText ("Клиент " +:+ n +:+ " (" +:+ address row +:+ ") удалён"))].
Proof.
  intros Ha Hu Hsel Ho. unfold remove_cmd, spawned in *. exec_det.
  split; [done|]. by events.
Qed.

(** The removal process ran: whatever its exit status, nothing is said
    about it, and the row is deleted. *)
Lemma revoke_removal_completed u n rest w row p :
  APPLY_PEER cfg = true → not_admin cfg u = false →
  select_by_name (db w) n = Some row →
  run_outcome env (spawned w) (remove_cmd cfg (public_key row)) None = Completed p →
  let w' := (revoke cfg env u (n :: rest) w).2 in
  db w' = delete_by_name (db w) n
  ∧ new_events w w' =
      [Spawn (remove_cmd cfg (public_key row)) None;
       Delete n;
       Sent (ReplyText ("Клиент " +:+ n +:+ " (" +:+ address row +:+ ") удалён"))].
Proof.
  intros Ha Hu Hsel Ho. unfold remove_cmd, spawned in *. exec_det.
  split; [done|]. by events.
Qed.

End Proofs.

(** ** The claims *)

(** C1. In every registry state reached from the empty registry by a
    serialized sequence of requests (newclient and revoke among them), no two
    peer rows share an address and every address is the configured base
    followed by a host number of the inclusive range
    [CLIENT_START .. CLIENT_MAX]. *)
Theorem registry_addresses_unique_in_pool (cfg : Config) (env : Env) (rqs : list Request) :
  let w := run cfg env rqs init_world in
  NoDup (address <$> db w) ∧ Forall (in_pool cfg) (address <$> db w).
Proof.
  cbn zeta. induction rqs as [|rq rqs IH] using rev_ind.
  - split; [apply NoDup_nil_2|apply Forall_nil_2].
  - rewrite run_snoc. by apply addresses_ok_step.
Qed.

(** C8. Called without a name, [newclient] answers with its usage line and
    does nothing else: no process is spawned (so no key pair is generated and
    the interface is not touched), no address is looked up, the table is
    unchanged. *)
Theorem newclient_without_name_no_effect (cfg : Config) (env : Env) (u : Update) (w : World) :
  let '(r, w') := newclient cfg env u [] w in
  r = inr tt ∧ db w' = db w ∧ iface w' = iface w
  ∧ new_events w w' = [Sent (ReplyText "Использование: /newclient <client_name>")].
Proof. exec. split_and!; [done..|]. by events. Qed.

(** C2. [next_free_ip] reads the table without changing anything, walks the
    host numbers [CLIENT_START .. CLIENT_MAX] upwards and returns the first
    address absent from the used set; when every address of the range is
    used it raises [RuntimeError 'No free IPs left in pool'].  With the range
    [2 .. 3], an empty table, a working key generator and two distinct
    names, two [newclient] calls insert the addresses ending in 2 and 3 and
    send the profiles, and a third call only answers with the pool error. *)
Theorem next_free_ip_first_fit :
  (∀ cfg w,
     match next_free_ip cfg w with
     | (inr ip, w') =>
       w' = w ∧ ∃ i, CLIENT_START cfg ≤ i ≤ CLIENT_MAX cfg
         ∧ ip = CLIENT_BASE cfg +:+ str i
         ∧ (ip ∉ used_addresses (db w))
         ∧ (∀ j, CLIENT_START cfg ≤ j < i →
                 CLIENT_BASE cfg +:+ str j ∈ used_addresses (db w))
     | (inl e, w') =>
       w' = w ∧ e = RuntimeError "No free IPs left in pool"
       ∧ (∀ j, CLIENT_START cfg ≤ j ≤ CLIENT_MAX cfg →
               CLIENT_BASE cfg +:+ str j ∈ used_addresses (db w))
     end)
  ∧ (∀ cfg env u1 u2 u3 n1 n2 n3 w,
       CLIENT_START cfg = 2 → CLIENT_MAX cfg = 3 → keygen_works env →
       db w = [] → n1 ≠ n2 →
       let w1 := (newclient cfg env u1 [n1] w).2 in
       let w2 := (newclient cfg env u2 [n2] w1).2 in
       let w3 := (newclient cfg env u3 [n3] w2).2 in
       (name <$> db w1 = [n1] ∧ address <$> db w1 = [CLIENT_BASE cfg +:+ "2"]
        ∧ ∃ conf cap, ReplyDocument conf (n1 +:+ ".conf") cap ∈ replies (new_events w w1))
       ∧ (name <$> db w2 = [n1; n2]
          ∧ address <$> db w2 = [CLIENT_BASE cfg +:+ "2"; CLIENT_BASE cfg +:+ "3"]
          ∧ ∃ conf cap, ReplyDocument conf (n2 +:+ ".conf") cap ∈ replies (new_events w1 w2))
       ∧ (db w3 = db w2
          ∧ replies (new_events w2 w3) = [ReplyText "Ошибка: No free IPs left in pool"])).
Proof.
  split.
  - intros cfg w. exec.
    + split; [by destruct w|]. by apply first_free_range_Some.
    + split_and!; [by destruct w|done|]. intros j Hj.
      eapply first_free_None; [done|]. apply elem_of_range. lia.
  - intros cfg env u1 u2 u3 n1 n2 n3 w Hs Hm Hk Hdb Hne w1 w2 w3.
    assert (Hpool : pool cfg = [2; 3]) by (unfold pool; by rewrite Hs, Hm).
    assert (H23 : CLIENT_BASE cfg +:+ "2" ≠ CLIENT_BASE cfg +:+ "3")
      by (by intros ?%(inj (String.append _))).
    destruct (keygen_works_at env (spawned w) Hk) as (k1 & q1 & Hk1).
    destruct (newclient_fresh cfg env u1 n1 [] w k1 q1 (CLIENT_BASE cfg +:+ "2") Hk1)
      as [Hdb1 Hdoc1].
    { rewrite Hpool, Hdb. cbn. rewrite bool_decide_eq_true_2; [done|set_solver]. }
    { rewrite Hdb. set_solver. }
    fold w1 in Hdb1, Hdoc1. rewrite Hdb in Hdb1. cbn [app] in Hdb1.
    destruct (keygen_works_at env (spawned w1) Hk) as (k2 & q2 & Hk2).
    destruct (newclient_fresh cfg env u2 n2 [] w1 k2 q2 (CLIENT_BASE cfg +:+ "3") Hk2)
      as [Hdb2 Hdoc2].
    { rewrite Hpool, Hdb1. cbn.
      rewrite bool_decide_eq_false_2 by set_solver.
      rewrite bool_decide_eq_true_2; [done|set_solver]. }
    { rewrite Hdb1. cbn. set_solver. }
    fold w2 in Hdb2, Hdoc2. rewrite Hdb1 in Hdb2. cbn [app] in Hdb2.
    destruct (keygen_works_at env (spawned w2) Hk) as (k3 & q3 & Hk3).
    destruct (newclient_pool_exhausted cfg env u3 n3 [] w2 k3 q3 Hk3)
      as (Hdb3 & _ & Hev3).
    { rewrite Hpool, Hdb2. cbn.
      rewrite bool_decide_eq_false_2 by set_solver.
      by rewrite bool_decide_eq_false_2 by set_solver. }
    fold w3 in Hdb3, Hev3.
    split_and!;
      [by rewrite Hdb1|by rewrite Hdb1|by eauto|by rewrite Hdb2|by rewrite Hdb2
      |by eauto|done|by rewrite Hev3].
Qed.

(** C3 fails as stated: with a pool of one address already held by "alice",
    a second [newclient alice] is answered with the pool error, not with the
    duplicate-name message. *)
Lemma newclient_existing_name_full_pool :
  let w := run Demo.single_cfg Demo.good_env
             [Demo.rq CmdNewclient Demo.guest ["alice"]] init_world in
  let w' := (newclient Demo.single_cfg Demo.good_env Demo.guest ["alice"] w).2 in
  "alice" ∈ name <$> db w
  ∧ replies (new_events w w') = [ReplyText "Ошибка: No free IPs left in pool"]
  ∧ replies (new_events w w') ≠ [ReplyText "Клиент с таким именем уже существует."].
Proof.
  cbn zeta. split_and!.
  - vm_compute. apply list_elem_of_here.
  - vm_compute. reflexivity.
  - vm_compute. discriminate.
Qed.

(** C3, amended.  When [newclient n] is called while a row named [n] exists
    (in a table with unique names), the table and the interface are left as
    they were, exactly one row is named [n], and the call performs nothing
    but key generation and replies; if moreover key generation succeeds and
    the pool has a free address, the call consists of the two key-generation
    processes followed by the duplicate-name reply. *)
Theorem newclient_existing_name (cfg : Config) (env : Env) (u : Update)
    (n : string) (rest : list string) (w : World) :
  n ∈ name <$> db w → NoDup (name <$> db w) →
  let w' := (newclient cfg env u (n :: rest) w).2 in
  db w' = db w ∧ iface w' = iface w
  ∧ length (filter (λ r, name r = n) (db w')) = 1%nat
  ∧ Forall keygen_or_reply (new_events w w')
  ∧ (∀ priv pub ip,
       keygen_at env (spawned w) priv pub →
       first_free cfg (used_addresses (db w)) (pool cfg) = Some ip →
       new_events w w' =
         [Spawn ["wg"; "genkey"] None; Spawn ["wg"; "pubkey"] (Some priv);
          Sent (ReplyText "Клиент с таким именем уже существует.")]).
Proof.
  intros Hn Hnd w'.
  assert (Hframe : db w' = db w ∧ iface w' = iface w ∧ Forall keygen_or_reply (new_events w w')).
  { subst w'. exec.
    all: split_and!; [done..|]; events.
    all: repeat (apply Forall_cons; split;
                 [first [exact I | left; reflexivity | right; reflexivity]|]).
    all: apply Forall_nil_2. }
  destruct Hframe as (Hdb & Hif & Hev). split_and!; [done..| | done |].
  - rewrite Hdb. by apply count_named_unique.
  - intros priv pub ip Hk Hfree.
    by destruct (newclient_duplicate cfg env u n rest w priv pub ip Hk Hfree Hn) as (_ & _ & ?).
Qed.

(** C6.  With live mutation enabled, when key generation succeeded, an
    address was free and the name was new, a failing [wg set] (the process
    cannot be started, or exits with a non-zero status) leaves the inserted
    row in the table and the interface untouched; the caller receives the
    failure text and then the profile rendered from that row, captioned with
    its address. *)
Theorem newclient_apply_failure_keeps_record (cfg : Config) (env : Env) (u : Update)
    (n : string) (rest : list string) (w : World) (priv pub ip : string)
    (o : RunOutcome) (e : Exn) :
  APPLY_PEER cfg = true →
  keygen_at env (spawned w) priv pub →
  first_free cfg (used_addresses (db w)) (pool cfg) = Some ip →
  n ∉ name <$> db w →
  run_outcome env (S (S (spawned w))) (apply_cmd cfg pub ip) None = o →
  apply_failure o e →
  let w' := (newclient cfg env u (n :: rest) w).2 in
  let row := new_row env w n priv pub ip in
  let conf_text := make_conf cfg (private_key row) (address row) in
  db w' = db w ++ [row]
  ∧ select_by_name (db w') n = Some row
  ∧ iface w' = iface w
  ∧ new_events w w' =
      [Spawn ["wg"; "genkey"] None; Spawn ["wg"; "pubkey"] (Some priv);
       Insert row;
       Spawn (apply_cmd cfg pub ip) None;
       Sent (ReplyText ("Не удалось применить к интерфейсу: " +:+ exn_str e));
       Sent (ReplyDocument conf_text (n +:+ ".conf")
               (Some ("Config " +:+ n +:+ " (" +:+ address row +:+ ")")))]
      ++ (if qrcode cfg
          then [Sent (ReplyPhoto conf_text (n +:+ ".png") (Some "QR"))] else []).
Proof.
  intros Happly (p1 & p2 & H1 & R1 & -> & H2 & R2 & ->) Hfree Hn Ho He w' row conf_text.
  assert (Hsel : select_by_name (db w ++ [row]) n = Some row)
    by (by apply (select_by_name_snoc (db w) row)).
  assert (Hall : db w' = db w ++ [row] ∧ iface w' = iface w
    ∧ new_events w w' =
      [Spawn ["wg"; "genkey"] None; Spawn ["wg"; "pubkey"] (Some (strip (stdout p1)));
       Insert row;
       Spawn (apply_cmd cfg (strip (stdout p2)) ip) None;
       Sent (ReplyText ("Не удалось применить к интерфейсу: " +:+ exn_str e));
       Sent (ReplyDocument conf_text (n +:+ ".conf")
               (Some ("Config " +:+ n +:+ " (" +:+ address row +:+ ")")))]
      ++ (if qrcode cfg
          then [Sent (ReplyPhoto conf_text (n +:+ ".png") (Some "QR"))] else [])).
  { clear Hsel. subst w' conf_text row.
    unfold pool, spawned, new_row, apply_cmd in *.
    exec_det. rewrite (wg_effect_failure _ _ _ _ _ He).
    destruct o as [msg|p]; cbn in He.
    - subst e. exec; (split_and!; [done..|]); by events.
    - destruct He as [Hrc ->]. exec; (split_and!; [done..|]); by events. }
  destruct Hall as (Hdb & Hif & Hev). split_and!; [done| |done..].
  by rewrite Hdb.
Qed.

(** C5.  For every peer row and configuration the rendered profile is the
    document with the sections Interface and Peer, in this order, each a
    block of [Key = Value] lines: PrivateKey, Address (the address followed
    by /32), DNS; then PublicKey, Endpoint (host, a colon, the port),
    AllowedIPs (0.0.0.0/0, ::/0), PersistentKeepalive (25). *)
Theorem make_conf_profile_format (cfg : Config) (r : Peer) :
  make_conf cfg (private_key r) (address r) =
  render_document
    [("Interface", [("PrivateKey", private_key r);
                    ("Address", address r +:+ "/32");
                    ("DNS", "1.1.1.1")]);
     ("Peer", [("PublicKey", SERVER_PUBLIC_KEY cfg);
               ("Endpoint", SERVER_PUBLIC_IP cfg +:+ ":" +:+ str (SERVER_WG_PORT cfg));
               ("AllowedIPs", "0.0.0.0/0, ::/0");
               ("PersistentKeepalive", "25")])].
Proof.
  unfold make_conf, render_document, render_section, render_field.
  cbn [fmap list_fmap String.concat fst snd].
  rewrite !string_app_assoc. reflexivity.
Qed.

(** The template of the file-based bot is a different document: it pins the
    address and routes IPv4 only. *)
Remark legacy_template_differs :
  Legacy.build_client_config "SRVPUB" "203.0.113.7" "51820" "alice" "priv0"
  ≠ make_conf Demo.cfg "priv0" "10.0.0.2".
Proof. vm_compute. discriminate. Qed.

(** C9.  [get_config] is read-only and repeatable: it returns normally,
    leaves the table and the interface as they were and performs nothing but
    replies (no process is spawned, so no key is generated; no row is
    written); calling it again sends the same replies; its replies are
    determined by the row stored under the name, whatever else the world
    holds; for an unknown name the only reply is the not-found text, for a
    known one the first reply is the profile rendered from the stored row. *)
Theorem get_config_idempotent_read_only (cfg : Config) (u : Update)
    (a : list string) (w : World) :
  let '(r, w') := get_config cfg u a w in
  r = inr tt ∧ db w' = db w ∧ iface w' = iface w
  ∧ Forall is_sent (new_events w w')
  ∧ (∀ u2, new_events w' (get_config cfg u2 a w').2 = new_events w w')
  ∧ (∀ u2 w2 n rest,
       a = n :: rest → select_by_name (db w2) n = select_by_name (db w) n →
       new_events w2 (get_config cfg u2 a w2).2 = new_events w w')
  ∧ (∀ n rest,
       a = n :: rest → select_by_name (db w) n = None →
       new_events w w' = [Sent (ReplyText "Клиент не найден")])
  ∧ (∀ n rest row,
       a = n :: rest → select_by_name (db w) n = Some row →
       ∃ tail, replies (new_events w w') =
         ReplyDocument (make_conf cfg (private_key row) (address row))
           (n +:+ ".conf") None :: tail).
Proof.
  destruct a as [|n rest].
  - exec. split_and!; try done.
    + events. repeat constructor.
    + intros u2. by events.
  - exec.
    all: split_and!; try done.
    all: try (events; repeat constructor; fail).
    all: try (intros u2; exec_det; by events).
    all: try (intros u2 w2 n' rest' [= <- <-] Hsel; rewrite ?Heqo in Hsel;
              exec_det; by events).
    all: try (intros; simplify_eq; events; by eauto).
Qed.

(** C10.  [get_config] looks at the name only: any two callers get the same
    result on the same world, and for an existing peer that result starts
    with the profile document, whose first field is the peer's private key.
    The same caller, when it is not the administrator, is turned away by
    [list_clients] and [revoke]. *)
Theorem get_config_not_admin_gated (cfg : Config) (env : Env) (u1 u2 : Update)
    (n : string) (rest : list string) (w : World) :
  get_config cfg u1 (n :: rest) w = get_config cfg u2 (n :: rest) w
  ∧ (∀ row, select_by_name (db w) n = Some row →
       ∃ after tail,
         replies (new_events w (get_config cfg u1 (n :: rest) w).2) =
           ReplyDocument ("[Interface]" +:+ newline +:+ "PrivateKey = "
                          +:+ private_key row +:+ after)
             (n +:+ ".conf") None :: tail)
  ∧ (not_admin cfg u1 = true →
       new_events w (list_clients cfg u1 (n :: rest) w).2 =
         [Sent (ReplyText "Только администратор может смотреть список клиентов.")]
       ∧ new_events w (revoke cfg env u1 (n :: rest) w).2 =
         [Sent (ReplyText "Только администратор может отзывать клиентов.")]
       ∧ db (revoke cfg env u1 (n :: rest) w).2 = db w).
Proof.
  split_and!.
  - reflexivity.
  - intros row Hsel. exec_det. exec; events; by eexists _, _.
  - intros Hna. split_and!; exec_det; try done; by events.
Qed.

(** C7 does not hold on the code.  With live mutation enabled and a
    toolchain whose [wg set ... remove] exits with status 1, revoking an
    existing peer deletes the row, leaves the peer on the interface, and
    tells the caller only that the client was removed: the exit status of
    the removal is never looked at. *)
Theorem revoke_failed_removal_not_reported :
  let w := run Demo.cfg Demo.sticky_env
             [Demo.rq CmdNewclient Demo.guest ["alice"]] init_world in
  let w' := (revoke Demo.cfg Demo.sticky_env Demo.admin ["alice"] w).2 in
  run_outcome Demo.sticky_env (spawned w) (remove_cmd Demo.cfg "pub1") None
    = Demo.failed 1 "Unable to modify interface: Operation not permitted"
  ∧ new_events w w' =
      [Spawn (remove_cmd Demo.cfg "pub1") None; Delete "alice";
       Sent (ReplyText "Клиент alice (10.0.0.2) удалён")]
  ∧ db w' = []
  ∧ iface w' !! "pub1" = Some "10.0.0.2/32".
Proof. cbn zeta. split_and!; vm_compute; reflexivity. Qed.

(** C4 fails as stated: with live mutation enabled, once the removal run by
    [revoke] exits with a non-zero status the row is deleted all the same,
    and the peer stays on the interface without a registry row. *)
Lemma iface_entry_outlives_record :
  let w := run Demo.cfg Demo.sticky_env
             [Demo.rq CmdNewclient Demo.guest ["alice"];
              Demo.rq CmdRevoke Demo.admin ["alice"]] init_world in
  APPLY_PEER Demo.cfg = true ∧ db w = []
  ∧ iface w !! "pub1" = Some "10.0.0.2/32"
  ∧ ¬ iface_within_registry w.
Proof.
  cbn zeta. split_and!; [done|by vm_compute|by vm_compute|].
  intros H. specialize (H "pub1").
  assert (Hdb : db (run Demo.cfg Demo.sticky_env
             [Demo.rq CmdNewclient Demo.guest ["alice"];
              Demo.rq CmdRevoke Demo.admin ["alice"]] init_world) = [])
    by (by vm_compute).
  rewrite Hdb in H. eapply elem_of_nil, H.
  apply elem_of_dom. eexists. by vm_compute.
Qed.

(** C4, amended.  As long as every removal attempted by [revoke] exits with
    status 0, the peers of the interface are public keys of registry rows
    after every request of any serialized sequence started on the empty
    registry and the empty interface.  With live mutation enabled,
    [newclient] commits its row before it spawns [wg set ... allowed-ips],
    and [revoke] spawns [wg set ... remove] before it deletes the row. *)
Theorem iface_within_registry_while_removals_succeed (cfg : Config) (env : Env) :
  (removals_succeed cfg env →
   ∀ rqs, iface_within_registry (run cfg env rqs init_world))
  ∧ (APPLY_PEER cfg = true →
     ∀ u a w row,
       Insert row ∈ new_events w (newclient cfg env u a w).2 →
       ∃ priv tail,
         new_events w (newclient cfg env u a w).2 =
           [Spawn ["wg"; "genkey"] None; Spawn ["wg"; "pubkey"] (Some priv);
            Insert row;
            Spawn (apply_cmd cfg (public_key row) (address row)) None] ++ tail
         ∧ Forall is_sent tail)
  ∧ (APPLY_PEER cfg = true →
     ∀ u a w n,
       Delete n ∈ new_events w (revoke cfg env u a w).2 →
       ∃ row mid,
         select_by_name (db w) n = Some row
         ∧ new_events w (revoke cfg env u a w).2 =
             Spawn (remove_cmd cfg (public_key row)) None :: mid
             ++ [Delete n;
                 Sent (ReplyText ("Клиент " +:+ n +:+ " (" +:+ address row +:+ ") удалён"))]
         ∧ Forall is_sent mid).
Proof.
  split_and!.
  - intros Hrm rqs. by destruct (registry_inv_run cfg env rqs Hrm) as (_ & ? & _).
  - intros Happly u a w row. destruct a as [|n rest].
    { exec. events. by intros [=]%list_elem_of_singleton. }
    unfold apply_cmd. exec.
    all: events; intros Hin.
    all: repeat (apply elem_of_cons in Hin as [Hin|Hin]; [try discriminate Hin|]).
    all: try (by apply elem_of_nil in Hin).
    all: injection Hin as ->; cbn [public_key address].
    all: eexists _, _; split; [reflexivity|repeat constructor].
  - intros Happly u a w n. destruct a as [|n' rest].
    { exec; events; by intros [=]%list_elem_of_singleton. }
    unfold remove_cmd. exec.
    all: events; intros Hin.
    all: repeat (apply elem_of_cons in Hin as [Hin|Hin]; [try discriminate Hin|]).
    all: try (by apply elem_of_nil in Hin).
    all: injection Hin as ->; simplify_eq.
    all: eexists _, _; split; [reflexivity|].
    + split; [by instantiate (1 := [_])|repeat constructor].
    + split; [by instantiate (1 := [])|repeat constructor].
Qed.

(** * Instances on the sample configuration *)

Lemma good_env_keygen_works : keygen_works Demo.good_env.
Proof. intros n input. split; eexists; split; reflexivity. Qed.

Lemma good_env_removals_succeed : removals_succeed Demo.cfg Demo.good_env.
Proof. intros k pub. eexists. split; reflexivity. Qed.

Lemma next_free_ip_first_fit_witness :
  let w1 := (newclient Demo.cfg Demo.good_env Demo.guest ["alice"] init_world).2 in
  let w2 := (newclient Demo.cfg Demo.good_env Demo.guest ["bob"] w1).2 in
  let w3 := (newclient Demo.cfg Demo.good_env Demo.guest ["carol"] w2).2 in
  address <$> db w2 = ["10.0.0.2"; "10.0.0.3"]
  ∧ db w3 = db w2
  ∧ replies (new_events w2 w3) = [ReplyText "Ошибка: No free IPs left in pool"].
Proof.
  destruct (proj2 next_free_ip_first_fit Demo.cfg Demo.good_env
              Demo.guest Demo.guest Demo.guest "alice" "bob" "carol" init_world)
    as (_ & (_ & H2 & _) & H3 & H4).
  - reflexivity.
  - reflexivity.
  - exact good_env_keygen_works.
  - reflexivity.
  - discriminate.
  - cbn zeta. split_and!; [exact H2|exact H3|exact H4].
Defined.

Lemma newclient_existing_name_witness :
  let w := run Demo.cfg Demo.good_env
             [Demo.rq CmdNewclient Demo.guest ["alice"]] init_world in
  let w' := (newclient Demo.cfg Demo.good_env Demo.guest ["alice"] w).2 in
  db w' = db w
  ∧ new_events w w' =
      [Spawn ["wg"; "genkey"] None; Spawn ["wg"; "pubkey"] (Some "priv3");
       Sent (ReplyText "Клиент с таким именем уже существует.")].
Proof.
  destruct (newclient_existing_name Demo.cfg Demo.good_env Demo.guest "alice" []
              (run Demo.cfg Demo.good_env
                 [Demo.rq CmdNewclient Demo.guest ["alice"]] init_world))
    as (Hdb & _ & _ & _ & Hev).
  - vm_compute. apply list_elem_of_here.
  - vm_compute. apply NoDup_singleton.
  - cbn zeta. split; [exact Hdb|].
    apply (Hev "priv3" "pub4" "10.0.0.3").
    + eexists _, _. split_and!; vm_compute; reflexivity.
    + vm_compute. reflexivity.
Defined.

Lemma iface_within_registry_while_removals_succeed_witness :
  let rqs := [Demo.rq CmdNewclient Demo.guest ["alice"];
              Demo.rq CmdNewclient Demo.guest ["bob"];
              Demo.rq CmdRevoke Demo.admin ["alice"]] in
  let w1 := run Demo.cfg Demo.good_env [Demo.rq CmdNewclient Demo.guest ["alice"]] init_world in
  iface_within_registry (run Demo.cfg Demo.good_env rqs init_world)
  ∧ (∃ tail,
       new_events init_world (newclient Demo.cfg Demo.good_env Demo.guest ["alice"] init_world).2 =
         [Spawn ["wg"; "genkey"] None; Spawn ["wg"; "pubkey"] (Some "priv0");
          Insert {| id := 1; name := "alice"; private_key := "priv0";
                    public_key := "pub1"; address := "10.0.0.2";
                    created_at := "2024-01-01 00:00:02" |};
          Spawn ["wg"; "set"; "wg0"; "peer"; "pub1"; "allowed-ips"; "10.0.0.2/32"] None]
         ++ tail)
  ∧ (∃ mid,
       new_events w1 (revoke Demo.cfg Demo.good_env Demo.admin ["alice"] w1).2 =
         Spawn ["wg"; "set"; "wg0"; "peer"; "pub1"; "remove"] None :: mid
         ++ [Delete "alice"; Sent (ReplyText "Клиент alice (10.0.0.2) удалён")]).
Proof.
  destruct (iface_within_registry_while_removals_succeed Demo.cfg Demo.good_env)
    as (Hsub & Hnew & Hrev).
  cbn zeta. split_and!.
  - apply Hsub. exact good_env_removals_succeed.
  - destruct (Hnew eq_refl Demo.guest ["alice"] init_world
                {| id := 1; name := "alice"; private_key := "priv0";
                   public_key := "pub1"; address := "10.0.0.2";
                   created_at := "2024-01-01 00:00:02" |})
      as (priv & tail & Hev & _).
    + vm_compute. do 2 apply list_elem_of_further. apply list_elem_of_here.
    + exists tail. rewrite Hev. vm_compute in Hev.
      injection Hev as <- _. reflexivity.
  - destruct (Hrev eq_refl Demo.admin ["alice"]
                (run Demo.cfg Demo.good_env
                   [Demo.rq CmdNewclient Demo.guest ["alice"]] init_world) "alice")
      as (row & mid & Hsel & Hev & _).
    + vm_compute. apply list_elem_of_further. apply list_elem_of_here.
    + exists mid. rewrite Hev. vm_compute in Hsel. injection Hsel as <-. reflexivity.
Defined.

Lemma newclient_apply_failure_keeps_record_witness :
  let w' := (newclient Demo.cfg Demo.readonly_env Demo.guest ["alice"] init_world).2 in
  let row := {| id := 1; name := "alice"; private_key := "priv0";
                public_key := "pub1"; address := "10.0.0.2";
                created_at := "2024-01-01 00:00:02" |} in
  db w' = [row] ∧ select_by_name (db w') "alice" = Some row ∧ iface w' = ∅
  ∧ replies (new_events init_world w') =
      [ReplyText "Не удалось применить к интерфейсу: wg set failed: Unable to modify interface: Operation not permitted";
       ReplyDocument (make_conf Demo.cfg "priv0" "10.0.0.2") "alice.conf"
         (Some "Config alice (10.0.0.2)")].
Proof.
  destruct (newclient_apply_failure_keeps_record Demo.cfg Demo.readonly_env Demo.guest
              "alice" [] init_world "priv0" "pub1" "10.0.0.2"
              (Demo.failed 1 "Unable to modify interface: Operation not permitted")
              (RuntimeError "wg set failed: Unable to modify interface: Operation not permitted"))
    as (Hdb & Hsel & Hif & Hev).
  - reflexivity.
  - eexists _, _. split_and!; vm_compute; reflexivity.
  - vm_compute. reflexivity.
  - apply not_elem_of_nil.
  - reflexivity.
  - split; [discriminate|reflexivity].
  - cbn zeta. split_and!; [exact Hdb|exact Hsel|exact Hif|]. rewrite Hev. reflexivity.
Defined.

Lemma get_config_idempotent_read_only_witness :
  let w := run Demo.cfg Demo.good_env
             [Demo.rq CmdNewclient Demo.guest ["alice"]] init_world in
  let w' := (get_config Demo.cfg Demo.guest ["alice"] w).2 in
  db w' = db w
  ∧ new_events w' (get_config Demo.cfg Demo.admin ["alice"] w').2 = new_events w w'
  ∧ new_events w (get_config Demo.cfg Demo.guest ["zoe"] w).2
      = [Sent (ReplyText "Клиент не найден")]
  ∧ ∃ tail, replies (new_events w w') =
      ReplyDocument (make_conf Demo.cfg "priv0" "10.0.0.2") "alice.conf" None :: tail.
Proof.
  cbn zeta.
  pose proof (get_config_idempotent_read_only Demo.cfg Demo.guest ["alice"]
                (run Demo.cfg Demo.good_env
                   [Demo.rq CmdNewclient Demo.guest ["alice"]] init_world))
    as (_ & Hdb & _ & _ & Hagain & _ & _ & Hdoc).
  pose proof (get_config_idempotent_read_only Demo.cfg Demo.guest ["zoe"]
                (run Demo.cfg Demo.good_env
                   [Demo.rq CmdNewclient Demo.guest ["alice"]] init_world))
    as (_ & _ & _ & _ & _ & _ & Hnone & _).
  split_and!.
  - exact Hdb.
  - exact (Hagain Demo.admin).
  - exact (Hnone "zoe" [] eq_refl eq_refl).
  - exact (Hdoc "alice" [] _ eq_refl eq_refl).
Defined.

Lemma get_config_not_admin_gated_witness :
  let w := run Demo.cfg Demo.good_env
             [Demo.rq CmdNewclient Demo.guest ["alice"]] init_world in
  get_config Demo.cfg Demo.guest ["alice"] w = get_config Demo.cfg Demo.admin ["alice"] w
  ∧ (∃ after tail,
       replies (new_events w (get_config Demo.cfg Demo.guest ["alice"] w).2) =
         ReplyDocument ("[Interface]" +:+ newline +:+ "PrivateKey = " +:+ "priv0" +:+ after)
           "alice.conf" None :: tail)
  ∧ new_events w (list_clients Demo.cfg Demo.guest ["alice"] w).2 =
      [Sent (ReplyText "Только администратор может смотреть список клиентов.")]
  ∧ db (revoke Demo.cfg Demo.good_env Demo.guest ["alice"] w).2 = db w.
Proof.
  cbn zeta.
  destruct (get_config_not_admin_gated Demo.cfg Demo.good_env Demo.guest Demo.admin
              "alice" []
              (run Demo.cfg Demo.good_env
                 [Demo.rq CmdNewclient Demo.guest ["alice"]] init_world))
    as (Heq & Hdoc & Hgate).
  destruct (Hgate eq_refl) as (Hlist & _ & Hdb).
  split_and!; [exact Heq| |exact Hlist|exact Hdb].
  exact (Hdoc _ eq_refl).
Defined.

(** * Further properties of the handlers *)

Section MoreLemmas.
Variable cfg : Config.
Variable env : Env.

Lemma gen_keypair_frame w :
  db (gen_keypair cfg env w).2 = db w ∧ iface (gen_keypair cfg env w).2 = iface w.
Proof. exec; done. Qed.





Lemma select_by_name_delete_same (t : Table) n :
  select_by_name (delete_by_name t n) n = None.
Proof.
  unfold select_by_name, delete_by_name.
  induction t as [|r t IH]; [done|].
  rewrite filter_cons. case_decide as H1; [|done].
  rewrite filter_cons. by case_decide.
Qed.

Lemma select_by_name_delete_other (t : Table) n n' :
  n' ≠ n → select_by_name (delete_by_name t n) n' = select_by_name t n'.
Proof.
  intros Hne. unfold select_by_name, delete_by_name.
  induction t as [|r t IH]; [done|].
  rewrite (filter_cons _ r t). case_decide as H1.
  - rewrite !filter_cons. case_decide; [done|exact IH].
  - rewrite filter_cons. case_decide; [congruence|exact IH].
Qed.

Lemma name_not_in_delete (t : Table) n : n ∉ name <$> delete_by_name t n.
Proof.
  intros (r & -> & Hr)%list_elem_of_fmap.
  by apply list_elem_of_filter in Hr as [? _].
Qed.

Lemma delete_by_name_snoc_fresh (t : Table) row :
  name row ∉ name <$> t → delete_by_name (t ++ [row]) (name row) = t.
Proof.
  intros H. unfold delete_by_name. rewrite filter_app, filter_cons, filter_nil.
  case_decide; [done|]. rewrite app_nil_r.
  induction t as [|r t IH]; [done|].
  rewrite fmap_cons, not_elem_of_cons in H. destruct H as [Hr Ht].
  rewrite filter_cons. case_decide; [|congruence]. f_equal. by apply IH.
Qed.

Lemma NoDup_fmap_elem_inj {A B} (f : A → B) (l : list A) x y :
  NoDup (f <$> l) → x ∈ l → y ∈ l → f x = f y → x = y.
Proof.
  induction l as [|a l IH]; [by intros _ ?%elem_of_nil|].
  rewrite fmap_cons, NoDup_cons. intros [Ha Hl] Hx Hy Hf.
  apply elem_of_cons in Hx as [->|Hx]; apply elem_of_cons in Hy as [->|Hy].
  - done.
  - destruct Ha. rewrite Hf. by apply list_elem_of_fmap_2.
  - destruct Ha. rewrite <- Hf. by apply list_elem_of_fmap_2.
  - by apply IH.
Qed.

Lemma addresses_ok_run rqs : addresses_ok cfg (db (run cfg env rqs init_world)).
Proof.
  induction rqs as [|rq rqs IH] using rev_ind.
  - split; [apply NoDup_nil_2|apply Forall_nil_2].
  - rewrite run_snoc. by apply addresses_ok_step.
Qed.

End MoreLemmas.




(** X3.  When key generation fails, [newclient] answers with
    ['Ошибка: ' + the error text] and stops there: the table and the
    interface are as before and nothing follows the key-generation events. *)
Theorem newclient_keygen_failure (cfg : Config) (env : Env) (u : Update)
    (n : string) (rest : list string) (w : World) (e : Exn) :
  (gen_keypair cfg env w).1 = inl e →
  let w1 := (gen_keypair cfg env w).2 in
  let w' := (newclient cfg env u (n :: rest) w).2 in
  db w' = db w ∧ iface w' = iface w
  ∧ journal w' = journal w1 ++ [Sent (ReplyText ("Ошибка: " +:+ exn_str e))].
Proof.
  intros He w1 w'. destruct (gen_keypair_frame cfg env w) as [Hdb Hif].
  subst w1 w'. unfold newclient, bind, try, ret.
  destruct (gen_keypair cfg env w) as [[e'|kp] wk]; cbn [fst snd] in *; [|done].
  injection He as ->. cbn. by rewrite Hdb, Hif.
Qed.

Lemma newclient_keygen_failure_witness :
  let w' := (newclient Demo.cfg Samples.absent_env Demo.guest ["alice"] init_world).2 in
  db w' = []
  ∧ journal w' =
      [Spawn ["wg"; "genkey"] None;
       Sent (ReplyText "Ошибка: [Errno 2] No such file or directory: 'wg'")].
Proof.
  destruct (newclient_keygen_failure Demo.cfg Samples.absent_env Demo.guest "alice" []
              init_world (OSError "[Errno 2] No such file or directory: 'wg'"))
    as (Hdb & _ & Hj).
  - reflexivity.
  - cbn zeta. split; [exact Hdb|exact Hj].
Defined.



(** X5.  [revoke] on a name that is not in the table (asked by a caller who
    passes the administrator check) only answers ['Клиент не найден']: no
    process is spawned, nothing is deleted, table and interface are
    unchanged. *)
Theorem revoke_unknown_name (cfg : Config) (env : Env) (u : Update)
    (n : string) (rest : list string) (w : World) :
  not_admin cfg u = false →
  select_by_name (db w) n = None →
  let w' := (revoke cfg env u (n :: rest) w).2 in
  db w' = db w ∧ iface w' = iface w
  ∧ new_events w w' = [Sent (ReplyText "Клиент не найден")].
Proof. intros Hu Hsel. exec_det. split_and!; [done..|by events]. Qed.

Lemma revoke_unknown_name_witness :
  let w' := (revoke Demo.cfg Demo.good_env Demo.admin ["zoe"] Samples.alice_world).2 in
  db w' = db Samples.alice_world
  ∧ new_events Samples.alice_world w' = [Sent (ReplyText "Клиент не найден")].
Proof.
  destruct (revoke_unknown_name Demo.cfg Demo.good_env Demo.admin "zoe" []
              Samples.alice_world) as (Hdb & _ & Hev).
  - reflexivity.
  - vm_compute. reflexivity.
  - cbn zeta. split; [exact Hdb|exact Hev].
Defined.

(** X6.  [revoke] of an existing peer by a caller who passes the
    administrator check deletes the rows of that name and no other, whatever
    the removal from the interface does: afterwards the name is not found
    (also by [get_config]), and every other name is found as before. *)
Theorem revoke_deletes_named_row (cfg : Config) (env : Env) (u : Update)
    (n : string) (rest : list string) (w : World) (row : Peer) :
  not_admin cfg u = false →
  select_by_name (db w) n = Some row →
  let w' := (revoke cfg env u (n :: rest) w).2 in
  db w' = delete_by_name (db w) n
  ∧ n ∉ name <$> db w'
  ∧ select_by_name (db w') n = None
  ∧ (∀ n', n' ≠ n → select_by_name (db w') n' = select_by_name (db w) n')
  ∧ (∀ u', new_events w' (get_config cfg u' [n] w').2
           = [Sent (ReplyText "Клиент не найден")]).
Proof.
  intros Hu Hsel w'.
  assert (Hdb : db w' = delete_by_name (db w) n) by (subst w'; exec; done).
  split_and!; [done|rewrite Hdb..|].
  - apply name_not_in_delete.
  - apply select_by_name_delete_same.
  - intros n' Hne. by apply select_by_name_delete_other.
  - intros u'.
    assert (Hnone : select_by_name (db w') n = None)
      by (rewrite Hdb; apply select_by_name_delete_same).
    exec_det. by events.
Qed.

Lemma revoke_deletes_named_row_witness :
  let w' := (revoke Demo.cfg Demo.sticky_env Demo.admin ["alice"]
               (run Demo.cfg Demo.sticky_env
                  [Demo.rq CmdNewclient Demo.guest ["alice"];
                   Demo.rq CmdNewclient Demo.guest ["bob"]] init_world)).2 in
  "alice" ∉ name <$> db w'
  ∧ new_events w' (get_config Demo.cfg Demo.guest ["alice"] w').2
      = [Sent (ReplyText "Клиент не найден")].
Proof.
  destruct (revoke_deletes_named_row Demo.cfg Demo.sticky_env Demo.admin "alice" []
              (run Demo.cfg Demo.sticky_env
                 [Demo.rq CmdNewclient Demo.guest ["alice"];
                  Demo.rq CmdNewclient Demo.guest ["bob"]] init_world)
              Samples.alice_row) as (_ & Hn & _ & _ & Hget).
  - reflexivity.
  - vm_compute. reflexivity.
  - cbn zeta. split; [exact Hn|exact (Hget Demo.guest)].
Defined.

(** X7.  What [newclient] hands out is what [get_config] hands out later:
    after a [newclient] whose key generation succeeded, for a new name and a
    free address, the stored row is found under the name and [get_config]
    sends, to any caller, a document with exactly the profile text
    [newclient] sent, whether or not the interface could be updated. *)
Theorem newclient_then_get_config (cfg : Config) (env : Env) (u u' : Update)
    (n : string) (rest : list string) (w : World) (priv pub ip : string) :
  keygen_at env (spawned w) priv pub →
  first_free cfg (used_addresses (db w)) (pool cfg) = Some ip →
  n ∉ name <$> db w →
  let w' := (newclient cfg env u (n :: rest) w).2 in
  let w'' := (get_config cfg u' [n] w').2 in
  select_by_name (db w') n = Some (new_row env w n priv pub ip)
  ∧ ReplyDocument (make_conf cfg priv ip) (n +:+ ".conf")
      (Some ("Config " +:+ n +:+ " (" +:+ ip +:+ ")")) ∈ replies (new_events w w')
  ∧ ∃ tail, replies (new_events w' w'') =
      ReplyDocument (make_conf cfg priv ip) (n +:+ ".conf") None :: tail.
Proof.
  intros Hk Hfree Hn w' w''.
  destruct (newclient_fresh cfg env u n rest w priv pub ip Hk Hfree Hn) as [Hdb Hdoc].
  fold w' in Hdb, Hdoc.
  assert (Hsel : select_by_name (db w') n = Some (new_row env w n priv pub ip)).
  { rewrite Hdb. by apply (select_by_name_snoc (db w) (new_row env w n priv pub ip)). }
  split_and!; [done..|]. subst w''. exec_det. cbn [private_key address new_row].
  exec; events; by eexists.
Qed.

Lemma newclient_then_get_config_witness :
  let w' := (newclient Demo.cfg Demo.readonly_env Demo.guest ["alice"] init_world).2 in
  ∃ tail, replies (new_events w' (get_config Demo.cfg Demo.admin ["alice"] w').2) =
    ReplyDocument (make_conf Demo.cfg "priv0" "10.0.0.2") "alice.conf" None :: tail.
Proof.
  destruct (newclient_then_get_config Demo.cfg Demo.readonly_env Demo.guest Demo.admin
              "alice" [] init_world "priv0" "pub1" "10.0.0.2") as (_ & _ & H).
  - eexists _, _. split_and!; vm_compute; reflexivity.
  - vm_compute. reflexivity.
  - apply not_elem_of_nil.
  - exact H.
Defined.

(** [exec] that also reads the fields of a row it has just built. *)
Ltac exec_rows :=
  exec_unfold;
  repeat first
    [ exec_simpl
    | progress cbn beta iota delta [id name private_key public_key address created_at]
    | exec_known
    | exec_split ].

Lemma wg_effect_apply_ok cfg pub ips p ifc :
  returncode p = 0 →
  wg_effect cfg ["wg"; "set"; SERVER_INTERFACE cfg; "peer"; pub; "allowed-ips"; ips]
    (Completed p) ifc = <[pub := ips]> ifc.
Proof.
  intros Hp. unfold wg_effect.
  rewrite bool_decide_eq_true_2 by done. by rewrite bool_decide_eq_true_2.
Qed.

Lemma wg_effect_remove_done cfg pub p ifc :
  returncode p = 0 →
  wg_effect cfg ["wg"; "set"; SERVER_INTERFACE cfg; "peer"; pub; "remove"]
    (Completed p) ifc = delete pub ifc.
Proof. apply wg_effect_remove_ok. Qed.

(** X8.  [newclient] followed by [revoke] of the same name gives the table
    back: for a new name, a free address and working key generation, and a
    revoking caller who passes the administrator check, the table after the
    two requests is the table before them.  The interface is given back too
    when live mutation is off, or when the key was not on the interface and
    both [wg set] calls exit with status 0. *)
Theorem newclient_then_revoke_restores (cfg : Config) (env : Env) (u u2 : Update)
    (n : string) (rest rest2 : list string) (w : World) (priv pub ip : string) :
  keygen_at env (spawned w) priv pub →
  first_free cfg (used_addresses (db w)) (pool cfg) = Some ip →
  n ∉ name <$> db w →
  not_admin cfg u2 = false →
  let w' := (newclient cfg env u (n :: rest) w).2 in
  let w'' := (revoke cfg env u2 (n :: rest2) w').2 in
  db w'' = db w
  ∧ (APPLY_PEER cfg = false → iface w'' = iface w)
  ∧ (∀ p1 p2,
       APPLY_PEER cfg = true → iface w !! pub = None →
       run_outcome env (S (S (spawned w))) (apply_cmd cfg pub ip) None = Completed p1 →
       returncode p1 = 0 →
       run_outcome env (S (S (S (spawned w)))) (remove_cmd cfg pub) None = Completed p2 →
       returncode p2 = 0 →
       iface w'' = iface w).
Proof.
  intros Hk Hfree Hn Hu2 w' w''.
  assert (Hsel : select_by_name (db w ++ [new_row env w n priv pub ip]) n
                 = Some (new_row env w n priv pub ip))
    by (by apply (select_by_name_snoc (db w) (new_row env w n priv pub ip))).
  assert (Hdel : delete_by_name (db w ++ [new_row env w n priv pub ip]) n = db w)
    by (by apply (delete_by_name_snoc_fresh (db w) (new_row env w n priv pub ip))).
  destruct Hk as (k1 & k2 & H1 & R1 & -> & H2 & R2 & ->).
  subst w' w''. unfold pool, new_row, apply_cmd, remove_cmd in *. unfold spawned in *.
  split_and!.
  - exec; done.
  - intros Hoff. exec_det. exec; done.
  - intros p1 p2 Hon Hnone Ho1 Hr1 Ho2 Hr2.
    exec_rows.
    all: rewrite wg_effect_remove_done, wg_effect_apply_ok by done;
      by rewrite delete_insert_eq, delete_id.
Qed.

Lemma newclient_then_revoke_restores_witness :
  let w' := (newclient Demo.cfg Demo.good_env Demo.guest ["bob"] Samples.alice_world).2 in
  let w'' := (revoke Demo.cfg Demo.good_env Demo.admin ["bob"] w').2 in
  db w'' = db Samples.alice_world ∧ iface w'' = iface Samples.alice_world.
Proof.
  destruct (newclient_then_revoke_restores Demo.cfg Demo.good_env Demo.guest Demo.admin
              "bob" [] [] Samples.alice_world "priv3" "pub4" "10.0.0.3")
    as (Hdb & _ & Hif).
  - eexists _, _. split_and!; vm_compute; reflexivity.
  - vm_compute. reflexivity.
  - vm_compute. by intros [[=]|?%elem_of_nil]%elem_of_cons.
  - reflexivity.
  - cbn zeta. split; [exact Hdb|].
    apply (Hif {| returncode := 0; stdout := ""; stderr := "" |}
               {| returncode := 0; stdout := ""; stderr := "" |});
      first [ reflexivity | by vm_compute ].
Defined.

(** X9.  Revoking frees the address.  In a state reached from the empty
    registry, after [revoke] of an existing peer (by a caller who passes the
    administrator check) the peer's address is no longer in the used set, and
    the allocator finds a free address whose host number is at most the one
    just released: the pool cannot be exhausted right after a revoke. *)
Theorem revoke_frees_address (cfg : Config) (env : Env) (rqs : list Request)
    (u : Update) (n : string) (rest : list string) (row : Peer) :
  let w := run cfg env rqs init_world in
  not_admin cfg u = false →
  select_by_name (db w) n = Some row →
  let w' := (revoke cfg env u (n :: rest) w).2 in
  address row ∉ used_addresses (db w')
  ∧ ∃ i i0, CLIENT_START cfg ≤ i ≤ i0 ∧ i0 ≤ CLIENT_MAX cfg
      ∧ address row = CLIENT_BASE cfg +:+ str i0
      ∧ first_free cfg (used_addresses (db w')) (pool cfg)
          = Some (CLIENT_BASE cfg +:+ str i).
Proof.
  intros w Hu Hsel w'.
  assert (Hdb : db w' = delete_by_name (db w) n) by (subst w'; exec; done).
  destruct (addresses_ok_run cfg env rqs) as [Hnd Hpool]. fold w in Hnd, Hpool.
  apply select_by_name_Some in Hsel as [Hrow Hname].
  assert (Hfree : address row ∉ used_addresses (db w')).
  { rewrite Hdb. unfold used_addresses. rewrite elem_of_list_to_set.
    intros (r & Ha & Hr)%list_elem_of_fmap.
    apply list_elem_of_filter in Hr as [Hrn Hr].
    apply Hrn. rewrite <- Hname. f_equal.
    by apply (NoDup_fmap_elem_inj address (db w)). }
  split; [done|].
  assert (Hin : in_pool cfg (address row)).
  { eapply Forall_forall; [exact Hpool|]. by apply list_elem_of_fmap_2. }
  destruct Hin as (i0 & Hi0 & Ha0).
  unfold pool.
  destruct (first_free cfg (used_addresses (db w'))
              (range (CLIENT_START cfg) (CLIENT_MAX cfg + 1))) as [ip|] eqn:Hff.
  - apply first_free_range_Some in Hff as (i & Hi & -> & _ & Hbelow).
    exists i, i0. split_and!; [lia| |lia|done..].
    destruct (decide (i ≤ i0)) as [|Hgt]; [done|].
    destruct Hfree. rewrite Ha0. apply Hbelow. lia.
  - destruct Hfree. rewrite Ha0. eapply first_free_None; [exact Hff|].
    apply elem_of_range. lia.
Qed.

Lemma revoke_frees_address_witness :
  let w := run Demo.cfg Demo.good_env
             [Demo.rq CmdNewclient Demo.guest ["alice"];
              Demo.rq CmdNewclient Demo.guest ["bob"]] init_world in
  let w' := (revoke Demo.cfg Demo.good_env Demo.admin ["alice"] w).2 in
  "10.0.0.2" ∉ used_addresses (db w')
  ∧ ∃ i, first_free Demo.cfg (used_addresses (db w')) (pool Demo.cfg)
           = Some ("10.0.0." +:+ str i).
Proof.
  destruct (revoke_frees_address Demo.cfg Demo.good_env
              [Demo.rq CmdNewclient Demo.guest ["alice"];
               Demo.rq CmdNewclient Demo.guest ["bob"]]
              Demo.admin "alice" [] Samples.alice_row)
    as (Hfree & i & i0 & _ & _ & _ & Hff).
  - reflexivity.
  - vm_compute. reflexivity.
  - cbn zeta. split; [exact Hfree|]. exists i. exact Hff.
Defined.

(** X10.  The registry never holds more peers than the range has host
    numbers: in every state reached from the empty registry the number of
    rows is at most [CLIENT_MAX - CLIENT_START + 1], and none at all when the
    range is empty. *)
Theorem registry_size_bounded (cfg : Config) (env : Env) (rqs : list Request) :
  (length (db (run cfg env rqs init_world))
   ≤ Z.to_nat (CLIENT_MAX cfg - CLIENT_START cfg + 1))%nat.
Proof.
  destruct (addresses_ok_run cfg env rqs) as [Hnd Hpool].
  set (t := db (run cfg env rqs init_world)) in *.
  set (k := (λ i, CLIENT_BASE cfg +:+ str i)
              <$> range (CLIENT_START cfg) (CLIENT_MAX cfg + 1)).
  assert (Hsub : address <$> t ⊆+ k).
  { apply NoDup_submseteq; [done|]. intros a Ha.
    eapply Forall_forall in Hpool as (i & Hi & ->); [|exact Ha].
    apply (list_elem_of_fmap_2 (λ i, CLIENT_BASE cfg +:+ str i)), elem_of_range. lia. }
  apply submseteq_length in Hsub. subst k.
  rewrite !length_fmap in Hsub. unfold range in Hsub. rewrite length_seqZ in Hsub.
  replace (CLIENT_MAX cfg - CLIENT_START cfg + 1)
    with (CLIENT_MAX cfg + 1 - CLIENT_START cfg) by lia.
  exact Hsub.
Qed.

(** X11.  Names stay unique: in every state reached from the empty registry
    no two rows carry the same name (the UNIQUE constraint, as the handlers
    keep it). *)
Theorem registry_names_unique (cfg : Config) (env : Env) (rqs : list Request) :
  NoDup (name <$> db (run cfg env rqs init_world)).
Proof. apply names_unique_run. Qed.

(** X12.  Rows stay in creation order: in every state reached from the empty
    registry the rowids increase strictly along the table, so the stored
    order is the order of [SELECT ... ORDER BY id], and a row inserted later
    is listed later. *)
Theorem registry_rowids_increasing (cfg : Config) (env : Env) (rqs : list Request) :
  StronglySorted (λ r1 r2, id r1 < id r2) (db (run cfg env rqs init_world)).
Proof. apply rowids_sorted_run. Qed.

(** X13.  The pool is reported exhausted exactly when it is full: in a state
    reached from the empty registry the allocator finds no free address if
    and only if the table holds as many rows as the range has host numbers
    (distinct host numbers give distinct addresses, so no address of the
    range is lost). *)
Theorem pool_exhausted_iff_full (cfg : Config) (env : Env) (rqs : list Request) :
  let w := run cfg env rqs init_world in
  first_free cfg (used_addresses (db w)) (pool cfg) = None
  ↔ length (db w) = Z.to_nat (CLIENT_MAX cfg - CLIENT_START cfg + 1).
Proof.
  intros w. destruct (addresses_ok_run cfg env rqs) as [Hnd Hpool]. fold w in Hnd, Hpool.
  set (f := λ i, CLIENT_BASE cfg +:+ str i).
  set (k := f <$> pool cfg).
  assert (Hk : NoDup k).
  { apply NoDup_fmap_2; [|apply NoDup_seqZ].
    intros i j Hij. unfold f in Hij. apply (inj (String.append _)) in Hij.
    by apply (inj pretty) in Hij. }
  assert (Hlen : length k = Z.to_nat (CLIENT_MAX cfg - CLIENT_START cfg + 1)).
  { unfold k, pool, range. rewrite length_fmap, length_seqZ. f_equal. lia. }
  assert (Hsub : address <$> db w ⊆+ k).
  { apply NoDup_submseteq; [done|]. intros a Ha.
    eapply Forall_forall in Hpool as (i & Hi & ->); [|exact Ha].
    apply (list_elem_of_fmap_2 f), elem_of_range. lia. }
  rewrite <- Hlen. split.
  - intros Hnone. apply Nat.le_antisymm.
    + apply submseteq_length in Hsub. by rewrite length_fmap in Hsub.
    + rewrite <- (length_fmap address). apply submseteq_length, NoDup_submseteq; [done|].
      intros a (i & -> & Hi)%list_elem_of_fmap.
      apply (elem_of_list_to_set (C := gset string)).
      by eapply first_free_None.
  - intros Hfull.
    assert (Hperm : address <$> db w ≡ₚ k).
    { apply submseteq_length_Permutation; [done|]. rewrite length_fmap. lia. }
    destruct (first_free cfg (used_addresses (db w)) (pool cfg)) as [ip|] eqn:Hff; [|done].
    apply first_free_Some in Hff as (pre & i & post & Hl & -> & Hfree & _).
    destruct Hfree. apply elem_of_list_to_set. rewrite Hperm.
    apply (list_elem_of_fmap_2 f). rewrite Hl. set_solver.
Qed.

(** X14.  [list_clients] reads and never writes, and ignores its arguments:
    table and interface are unchanged and the only event is one text.  A
    caller who fails the administrator check gets the refusal, whatever the
    table holds; any other caller gets ['Нет клиентов'] for an empty table,
    else the heading followed by one line [name — address — created_at] per
    row, in table order. *)
Theorem list_clients_read_only_and_gated (cfg : Config) (u : Update)
    (a : list string) (w : World) :
  let w' := (list_clients cfg u a w).2 in
  db w' = db w ∧ iface w' = iface w
  ∧ (not_admin cfg u = true →
     new_events w w' =
       [Sent (ReplyText "Только администратор может смотреть список клиентов.")])
  ∧ (not_admin cfg u = false →
     new_events w w' =
       [Sent (ReplyText
          (match db w with
           | [] => "Нет клиентов"
           | _ => String.concat newline ("Список клиентов:" :: (listing_line <$> db w))
           end))]).
Proof.
  unfold listing_line. exec.
  all: destruct (db w) eqn:E; cbn [db iface journal snd]; rewrite ?E.
  all: split_and!; [done|done| |]; intros [=]; by events.
Qed.

Lemma list_clients_read_only_and_gated_witness :
  new_events Samples.alice_world
    (list_clients Demo.cfg Demo.guest [] Samples.alice_world).2 =
    [Sent (ReplyText "Только администратор может смотреть список клиентов.")]
  ∧ new_events Samples.alice_world
      (list_clients Demo.cfg Demo.admin ["x"] Samples.alice_world).2 =
      [Sent (ReplyText ("Список клиентов:" +:+ newline
                        +:+ "alice — 10.0.0.2 — 2024-01-01 00:00:02"))].
Proof.
  split.
  - destruct (list_clients_read_only_and_gated Demo.cfg Demo.guest [] Samples.alice_world)
      as (_ & _ & H & _). exact (H eq_refl).
  - destruct (list_clients_read_only_and_gated Demo.cfg Demo.admin ["x"] Samples.alice_world)
      as (_ & _ & _ & H). rewrite (H eq_refl). vm_compute. reflexivity.
Defined.

(** X15.  Who passes the administrator check.  With [TG_ADMIN_CHAT_ID] unset
    or empty the check lets everybody through.  Otherwise a caller passes
    exactly when the decimal rendering of the chat id equals the configured
    text, so at most one chat id passes (and none when the text is not the
    canonical decimal of an integer). *)
Theorem not_admin_characterised (cfg : Config) (u : Update) :
  (ADMIN_CHAT_ID cfg = None ∨ ADMIN_CHAT_ID cfg = Some "" → not_admin cfg u = false)
  ∧ (∀ a, ADMIN_CHAT_ID cfg = Some a → a ≠ "" →
          (not_admin cfg u = false ↔ str (effective_chat_id u) = a))
  ∧ (∀ a u2, ADMIN_CHAT_ID cfg = Some a → a ≠ "" →
             not_admin cfg u = false → not_admin cfg u2 = false →
             effective_chat_id u = effective_chat_id u2).
Proof.
  assert (Hiff : ∀ v a, ADMIN_CHAT_ID cfg = Some a → a ≠ "" →
                        (not_admin cfg v = false ↔ str (effective_chat_id v) = a)).
  { intros v a Ha Hne. unfold not_admin. rewrite Ha.
    rewrite bool_decide_eq_true_2 by done. cbn [andb].
    rewrite bool_decide_eq_false. split; [apply dec_stable|by intros ? []]. }
  split_and!.
  - intros [Hn|He]; unfold not_admin; [by rewrite Hn|].
    rewrite He. by rewrite bool_decide_eq_false_2 by (by intros []).
  - intros a. apply Hiff.
  - intros a u2 Ha Hne H1 H2.
    apply (Hiff u a Ha Hne) in H1. apply (Hiff u2 a Ha Hne) in H2.
    apply (inj pretty). unfold str in *. congruence.
Qed.

Lemma not_admin_characterised_witness :
  not_admin Samples.open_cfg Demo.guest = false
  ∧ not_admin Demo.cfg Demo.admin = false
  ∧ effective_chat_id Demo.admin = 1000.
Proof.
  destruct (not_admin_characterised Samples.open_cfg Demo.guest) as (Hopen & _ & _).
  destruct (not_admin_characterised Demo.cfg Demo.admin) as (_ & Hiff & Huniq).
  split_and!.
  - apply Hopen. by left.
  - apply (Hiff "1000"); [reflexivity|discriminate|reflexivity].
  - apply (Huniq "1000" {| effective_chat_id := 1000 |});
      [reflexivity|discriminate|reflexivity|reflexivity].
Defined.





Section Disabled.
Variable cfg : Config.
Variable env : Env.
Hypothesis Hoff : APPLY_PEER cfg = false.

Lemma step_disabled rq w :
  iface (dispatch cfg env rq w).2 = iface w
  ∧ ∃ evs, journal (dispatch cfg env rq w).2 = journal w ++ evs ∧ Forall no_wg_set evs.
Proof.
  destruct rq as [c u a]. destruct c; cbn [dispatch command update args].
  2,4,5: destruct a as [|n rest].
  all: exec.
  all: try (destruct (db w) eqn:E; cbn [db iface journal snd]).
  all: split; [done|]; eexists; split; [rewrite <- ?app_assoc; reflexivity|].
  all: cbn [app];
    repeat (apply Forall_cons; split;
            [first [exact I | left; reflexivity | right; reflexivity]|]);
    apply Forall_nil_2.
Qed.

Lemma run_disabled rqs w :
  iface (run cfg env rqs w) = iface w
  ∧ ∃ evs, journal (run cfg env rqs w) = journal w ++ evs ∧ Forall no_wg_set evs.
Proof.
  induction rqs as [|rq rqs IH] using rev_ind.
  - split; [done|]. exists []. by rewrite app_nil_r.
  - destruct IH as (Hif & evs & Hj & Hev).
    unfold run in *. rewrite foldl_app. cbn [foldl].
    destruct (step_disabled rq (foldl (λ w rq, (dispatch cfg env rq w).2) w rqs))
      as (Hif' & evs' & Hj' & Hev').
    split; [congruence|]. exists (evs ++ evs'). split.
    + rewrite Hj', Hj. by rewrite app_assoc.
    + by apply Forall_app.
Qed.

End Disabled.

(** X17.  With live mutation switched off the bot never addresses the
    interface: over any sequence of requests, from any world, the interface
    is left as it was and the only processes spawned are [wg genkey] and
    [wg pubkey]. *)
Theorem interface_untouched_when_disabled (cfg : Config) (env : Env)
    (rqs : list Request) (w : World) :
  APPLY_PEER cfg = false →
  iface (run cfg env rqs w) = iface w
  ∧ Forall no_wg_set (new_events w (run cfg env rqs w)).
Proof.
  intros Hoff. destruct (run_disabled cfg env Hoff rqs w) as (Hif & evs & Hj & Hev).
  split; [done|]. unfold new_events. by rewrite Hj, drop_app_length.
Qed.

Lemma interface_untouched_when_disabled_witness :
  iface (run Samples.offline_cfg Demo.good_env
           [Demo.rq CmdNewclient Demo.guest ["alice"];
            Demo.rq CmdRevoke Demo.admin ["alice"]] init_world) = ∅.
Proof.
  exact (proj1 (interface_untouched_when_disabled Samples.offline_cfg Demo.good_env
                  [Demo.rq CmdNewclient Demo.guest ["alice"];
                   Demo.rq CmdRevoke Demo.admin ["alice"]] init_world eq_refl)).
Defined.



Section Synchronised.
Variable cfg : Config.
Variable env : Env.
Hypothesis Hrm : removals_succeed cfg env.

Lemma wg_effect_apply_lookup pub ip o ifc k ips :
  wg_effect cfg (apply_cmd cfg pub ip) o ifc !! k = Some ips →
  (k = pub ∧ ips = ip +:+ "/32") ∨ ifc !! k = Some ips.
Proof.
  unfold wg_effect, apply_cmd. destruct o as [msg|p]; [by right|].
  repeat case_bool_decide; try by right.
  destruct (decide (k = pub)) as [->|Hne].
  - rewrite lookup_insert_eq. intros [= <-]. by left.
  - rewrite lookup_insert_ne by done. by right.
Qed.

Lemma entries_step rq w :
  NoDup (name <$> db w) →
  (APPLY_PEER cfg = false → iface w = ∅) →
  (∀ k ips, iface w !! k = Some ips →
     ∃ r, r ∈ db w ∧ public_key r = k ∧ ips = address r +:+ "/32") →
  ∀ k ips, iface (dispatch cfg env rq w).2 !! k = Some ips →
    ∃ r, r ∈ db (dispatch cfg env rq w).2 ∧ public_key r = k ∧ ips = address r +:+ "/32".
Proof.
  intros Hnd Hoff Hent k ips.
  destruct (step_cases cfg env rq w)
    as [[-> ->]|[(row & -> & _ & Hfresh & Hif & _)|(n & row & Hsel & -> & Hif)]].
  - apply Hent.
  - intros Hk. destruct Hif as [[_ E]|[_ [o E]]]; rewrite E in Hk.
    + destruct (Hent _ _ Hk) as (r & Hr & ? & ?). exists r. set_solver.
    + apply wg_effect_apply_lookup in Hk as [[-> ->]|Hk].
      * exists row. set_solver.
      * destruct (Hent _ _ Hk) as (r & Hr & ? & ?). exists r. set_solver.
  - apply select_by_name_Some in Hsel as [Hrow Hname].
    intros Hk. destruct Hif as [[Hf E]|[_ E]]; rewrite E in Hk.
    + by rewrite (Hoff Hf) in Hk.
    + destruct (Hrm (spawned w) (public_key row)) as (p & Hp & Hrc).
      rewrite Hp, wg_effect_remove_ok in Hk by done.
      apply lookup_delete_Some in Hk as [Hne Hk].
      destruct (Hent _ _ Hk) as (r & Hr & Hpub & Hips).
      exists r. split_and!; [|done..].
      apply list_elem_of_filter. split; [|done].
      intros Hrn. apply Hne. rewrite <- Hpub. f_equal.
      apply (unique_name_row (db w)); [done..|congruence].
Qed.

Lemma entries_run rqs k ips :
  iface (run cfg env rqs init_world) !! k = Some ips →
  ∃ r, r ∈ db (run cfg env rqs init_world) ∧ public_key r = k
       ∧ ips = address r +:+ "/32".
Proof.
  revert k ips. induction rqs as [|rq rqs IH] using rev_ind; intros k ips.
  - cbn. by rewrite lookup_empty.
  - rewrite run_snoc. apply entries_step; [apply names_unique_run| |exact IH].
    intros Hf. destruct (registry_inv_run cfg env rqs Hrm) as (_ & _ & H). by apply H.
Qed.

End Synchronised.

(** X19.  The interface mirrors the registry.  As long as every removal
    attempted by [revoke] exits with status 0, in every state reached from
    the empty registry and interface each peer of the interface is the public
    key of a registry row and its allowed-ips are that row's address with
    the /32 mask. *)
Theorem iface_entries_carry_registry_address (cfg : Config) (env : Env)
    (rqs : list Request) (k ips : string) :
  removals_succeed cfg env →
  iface (run cfg env rqs init_world) !! k = Some ips →
  ∃ r, r ∈ db (run cfg env rqs init_world) ∧ public_key r = k
       ∧ ips = address r +:+ "/32".
Proof. intros Hrm. by apply entries_run. Qed.

Lemma iface_entries_carry_registry_address_witness :
  ∃ r, r ∈ db (run Demo.cfg Demo.good_env
                 [Demo.rq CmdNewclient Demo.guest ["alice"];
                  Demo.rq CmdNewclient Demo.guest ["bob"];
                  Demo.rq CmdRevoke Demo.admin ["alice"]] init_world)
       ∧ public_key r = "pub4" ∧ "10.0.0.3/32" = address r +:+ "/32".
Proof.
  apply (iface_entries_carry_registry_address Demo.cfg Demo.good_env
           [Demo.rq CmdNewclient Demo.guest ["alice"];
            Demo.rq CmdNewclient Demo.guest ["bob"];
            Demo.rq CmdRevoke Demo.admin ["alice"]] "pub4" "10.0.0.3/32").
  - exact good_env_removals_succeed.
  - vm_compute. reflexivity.
Defined.

Lemma pool_exhausted_iff_full_witness :
  first_free Demo.cfg
    (used_addresses (db (run Demo.cfg Demo.good_env
                           [Demo.rq CmdNewclient Demo.guest ["alice"];
                            Demo.rq CmdNewclient Demo.guest ["bob"]] init_world)))
    (pool Demo.cfg) = None.
Proof.
  apply (pool_exhausted_iff_full Demo.cfg Demo.good_env
           [Demo.rq CmdNewclient Demo.guest ["alice"];
            Demo.rq CmdNewclient Demo.guest ["bob"]]).
  vm_compute. reflexivity.
Defined.
